(** * go-mysql-server: comparison expressions and the analyzer driver

    A shallow embedding of [sql/expression/comparison.go] and of
    [sql/analyzer/analyzer.go].

    Go values of type [interface{}] are a variant of dynamic values, a Go
    result pair [(v, err)] is a [Result] that also records a run-time panic,
    and a method with a pointer receiver that assigns to a field of its
    receiver is a function in a state-and-error monad whose state is the
    receiver. *)

From Stdlib Require Import ZArith List String Ascii Bool DecimalString.
From Stdlib Require Import Floats.SpecFloat.
Import ListNotations.

Set Implicit Arguments.
Set Warnings "-register-all".
Open Scope string_scope.

(** ** gopkg.in/src-d/go-errors.v1 *)

Module errors.

(** [errors.NewKind(format)]: the kinds of this program have pairwise
    different formats, so a kind is known by its format. *)
Record Kind := NewKind { format : string }.

(** A Go [error]: one made by [Kind.New] remembers its kind, any other
    error (of another library) has none. *)
Record Error := { kind : option Kind; text : string }.

(** [fmt.Sprintf(format, args...)], for arguments that are given as their
    verb prints them: each verb ([%d], [%s], [%v], [%T]) is replaced by the
    next argument and [%%] is a percent sign; a verb with no argument left
    prints as [%!d(MISSING)].  The formats of this program have no flags,
    widths or precisions, and no call gives more arguments than its format
    has verbs. *)
Fixpoint Sprintf (format : string) (args : list string) : string :=
  match format with
  | EmptyString => EmptyString
  | String c rest =>
      if Ascii.eqb c "%" then
        match rest with
        | EmptyString => "%!(NOVERB)"
        | String verb rest' =>
            if Ascii.eqb verb "%" then String "%" (Sprintf rest' args)
            else
              match args with
              | arg :: args' => arg ++ Sprintf rest' args'
              | [] => "%!" ++ String verb ("(MISSING)" ++ Sprintf rest' [])
              end
        end
      else String c (Sprintf rest args)
  end.

(** [k.New(args...)]: the message is the format of the kind with its
    arguments filled in. *)
Definition New (k : Kind) (args : list string) : Error :=
  {| kind := Some k; text := Sprintf (format k) args |}.

Definition Is (k : Kind) (err : Error) : bool :=
  match kind err with
  | Some k' => String.eqb (format k) (format k')
  | None => false
  end.

Definition Error_ (err : Error) : string := text err.

End errors.

(** ** Results and receivers *)

(** What a Go call that returns [(A, error)] can do. *)
Inductive Result (A : Type) : Type :=
| Ok (a : A)
| Err (e : errors.Error)
| Panic (reason : string).

Arguments Ok {A} a.
Arguments Err {A} e.
Arguments Panic {A} reason.

(** A method on a pointer receiver of type [S]. *)
Definition M (S A : Type) : Type := S -> Result A * S.

Definition ret {S A : Type} (a : A) : M S A := fun s => (Ok a, s).

Definition fail {S A : Type} (e : errors.Error) : M S A := fun s => (Err e, s).

Definition panic {S A : Type} (reason : string) : M S A :=
  fun s => (Panic reason, s).

Definition bind {S A B : Type} (m : M S A) (k : A -> M S B) : M S B :=
  fun s =>
    match m s with
    | (Ok a, s') => k a s'
    | (Err e, s') => (Err e, s')
    | (Panic p, s') => (Panic p, s')
    end.

Definition get {S : Type} : M S S := fun s => (Ok s, s).

Definition modify {S : Type} (f : S -> S) : M S unit := fun s => (Ok tt, f s).

(** A call that does not touch the receiver. *)
Definition lift {S A : Type} (r : Result A) : M S A := fun s => (r, s).

(** A method of an embedded struct, run on the field that holds it. *)
Definition zoom {S T A : Type} (proj : S -> T) (upd : T -> S -> S)
    (m : M T A) : M S A :=
  fun s => let (r, t') := m (proj s) in (r, upd t' s).

(** [preserves I m]: the method [m] keeps the property [I] of its receiver,
    whatever it returns. *)
Definition preserves {S A : Type} (I : S -> Prop) (m : M S A) : Prop :=
  forall s, I s -> I (snd (m s)).

Declare Scope go_scope.
Delimit Scope go_scope with go.
Notation "x <- m ;; k" := (bind m (fun x => k))
  (at level 61, m at next level, right associativity) : go_scope.
Notation "m ;;; k" := (bind m (fun _ => k))
  (at level 61, right associativity) : go_scope.
Open Scope go_scope.

(** ** Dynamic values *)

(** The Go values that travel as [interface{}] between expressions: [nil]
    is SQL NULL. *)
Inductive Value : Type :=
| nil
| VBool (b : bool)
| VInt64 (n : Z)
| VUint64 (n : Z)
| VFloat64 (f : spec_float)
| VDecimal (coefficient exponent : Z)
| VString (s : string)
| VBytes (b : list ascii)
| VTime (unixNano : Z)
| VTuple (vs : list Value).

Definition isNil (v : Value) : bool :=
  match v with nil => true | _ => false end.

(** The type assertion [v.(string)]. *)
Definition assertString {S : Type} (v : Value) : M S string :=
  match v with
  | VString s => ret s
  | _ => panic "interface conversion: interface {} is not string"
  end.

Definition Row : Type := list Value.

(** ** Package sql

    [comparison.go] uses the SQL types only through the operations below,
    so they are the interface of a type system: every result of this file
    that is stated for a [sql.Package] holds for each implementation. *)

Module sql.

Class Package : Type := {
  (** [sql.Type], compared with Go's [==] *)
  Type_ : Type;
  Type_eq_dec : forall a b : Type_, {a = b} + {a <> b};
  IsNumber : Type_ -> bool;
  IsDecimal : Type_ -> bool;
  IsFloat : Type_ -> bool;
  IsSigned : Type_ -> bool;
  IsText : Type_ -> bool;
  Boolean : Type_;
  Int64 : Type_;
  Uint64 : Type_;
  Float64 : Type_;
  LongText : Type_;
  (** [t.Compare(a, b)] and [t.Convert(v)] *)
  Compare : Type_ -> Value -> Value -> Result Z;
  Convert : Type_ -> Value -> Result Value;
  (** [convertValue(val, castTo)] of [expression/convert.go] and the
      names of its targets *)
  convertValue : Value -> string -> Result Value;
  ConvertToDecimal : string;
  ConvertToDouble : string;
  ConvertToSigned : string;
  ConvertToUnsigned : string;
  ConvertToChar : string
}.

Definition Type_eqb `{Package} (a b : Type_) : bool :=
  if Type_eq_dec a b then true else false.

End sql.

(** ** Package internal/regex

    The engine behind [regex.New] and [Matcher.Match], as an interface. *)

Module regex.

Class Package : Type := {
  Matcher : Type;
  (** [regex.New(regex.Default(), pattern)]: a matcher (with its
      disposer) or the compilation error *)
  New : string -> Result Matcher;
  Match : Matcher -> string -> bool
}.

End regex.

(** ** Package expression: comparison.go *)

Module expression.

Definition ErrInvalidRegexp : errors.Kind :=
  errors.NewKind "Invalid regular expression: %s".

(** ErrNilOperand is returned if some or both of the comparison's operands
    is nil. *)
Definition ErrNilOperand : errors.Kind :=
  errors.NewKind "nil operand found in comparison".

Section Nodes.

Context {SQL : sql.Package} {RE : regex.Package}.

(** What travels through a [sync.Pool]: a [matcherErrTuple], made by the
    pool's [New], or a bare [regex.Matcher]. *)
Inductive PoolObject : Type :=
| matcherErrTuple (matcher : option regex.Matcher) (err : option errors.Error)
| aMatcher (m : regex.Matcher).

(** [sync.Pool]: its factory and the objects it holds.  [Get] hands out the
    object put last, which is what one goroutine sees of a pool between two
    collections, and calls [New] when the pool is empty. *)
Record Pool : Type := {
  Pool_New : unit -> Result PoolObject;
  objects : list PoolObject
}.

Definition Pool_Get : M Pool PoolObject :=
  fun p =>
    match objects p with
    | x :: rest => (Ok x, {| Pool_New := Pool_New p; objects := rest |})
    | [] => (Pool_New p tt, p)
    end.

Definition Pool_Put (x : PoolObject) : M Pool unit :=
  modify (fun p => {| Pool_New := Pool_New p; objects := x :: objects p |}).

(** [type comparison struct { BinaryExpression; compareType sql.Type }],
    with the two fields of the embedded [BinaryExpression] inlined. *)
Record comparison (E : Type) : Type := {
  Left : E;
  Right : E;
  compareType : option sql.Type_
}.

(** [type Regexp struct { comparison; pool *sync.Pool; cached bool }] *)
Record regexp (E : Type) : Type := {
  re_comparison : comparison E;
  pool : option Pool;
  cached : bool
}.

(** The expression nodes: the six comparisons of this file, and the leaves
    they are built on.

    Modelled from the spec: [Literal] and [GetField] of
    [expression/literal.go] and [expression/get_field.go] (section 3,
    "column reference ([GetField] by index), literal").  [Opaque] stands for
    a leaf of any other kind, known by its type and by what its [Eval]
    returns on a row.  The children of a node are objects of their own: no
    node is the child of two. *)
Inductive Expression : Type :=
| Literal (value : Value) (fieldType : sql.Type_)
| GetField (fieldIndex : nat) (fieldType : sql.Type_)
| Opaque (fieldType : sql.Type_) (eval : Row -> Result Value)
| Equals (c : comparison Expression)
| Regexp (re : regexp Expression)
| GreaterThan (c : comparison Expression)
| LessThan (c : comparison Expression)
| GreaterThanOrEqual (c : comparison Expression)
| LessThanOrEqual (c : comparison Expression).

Definition newComparison (left right : Expression) : comparison Expression :=
  {| Left := left; Right := right; compareType := None |}.

(** [func (c *comparison) Type() sql.Type] *)
Definition comparison_Type (c : comparison Expression) : sql.Type_ :=
  sql.Boolean.

(** [e.Type()] *)
Definition Type_of (e : Expression) : sql.Type_ :=
  match e with
  | Literal _ t => t
  | GetField _ t => t
  | Opaque t _ => t
  | Equals c => comparison_Type c
  | Regexp re => comparison_Type (re_comparison re)
  | GreaterThan c => comparison_Type c
  | LessThan c => comparison_Type c
  | GreaterThanOrEqual c => comparison_Type c
  | LessThanOrEqual c => comparison_Type c
  end.

Definition set_Left (l : Expression) (c : comparison Expression) :=
  {| Left := l; Right := Right c; compareType := compareType c |}.

Definition set_Right (r : Expression) (c : comparison Expression) :=
  {| Left := Left c; Right := r; compareType := compareType c |}.

Definition set_compareType (t : sql.Type_) (c : comparison Expression) :=
  {| Left := Left c; Right := Right c; compareType := Some t |}.

Definition set_comparison (c : comparison Expression) (re : regexp Expression) :=
  {| re_comparison := c; pool := pool re; cached := cached re |}.

Definition set_pool (p : option Pool) (re : regexp Expression) :=
  {| re_comparison := re_comparison re; pool := p; cached := cached re |}.

(** *** The methods of one node

    A node evaluates each of its two children at most once in an [Eval].
    [Left_Eval] is what [c.Left().Eval(ctx, row)] does when it is called:
    the result it returns and the left child as the call leaves it;
    [Right_Eval] the same for the right child. *)

Section Methods.

Variables Left_Eval Right_Eval : Result Value * Expression.

Definition call_Left_Eval : M (comparison Expression) Value :=
  fun c => (fst Left_Eval, set_Left (snd Left_Eval) c).

Definition call_Right_Eval : M (comparison Expression) Value :=
  fun c => (fst Right_Eval, set_Right (snd Right_Eval) c).

Definition evalLeftAndRight : M (comparison Expression) (Value * Value) :=
  left <- call_Left_Eval ;;
  right <- call_Right_Eval ;;
  ret (left, right).

Definition convertLeftAndRight (left right : Value) (convertTo : string)
  : Result (Value * Value) :=
  match sql.convertValue left convertTo with
  | Ok l =>
      match sql.convertValue right convertTo with
      | Ok r => Ok (l, r)
      | Err err => Err err
      | Panic p => Panic p
      end
  | Err err => Err err
  | Panic p => Panic p
  end.

Definition castLeftAndRight (left right : Value)
  : M (comparison Expression) (Value * Value) :=
  c <- get ;;
  let leftType := Type_of (Left c) in
  let rightType := Type_of (Right c) in
  if sql.IsNumber leftType || sql.IsNumber rightType then
    if sql.IsDecimal leftType || sql.IsDecimal rightType then
      lr <- lift (convertLeftAndRight left right sql.ConvertToDecimal) ;;
      (if sql.IsDecimal leftType
       then modify (set_compareType leftType)
       else modify (set_compareType rightType)) ;;;
      ret lr
    else if sql.IsFloat leftType || sql.IsFloat rightType then
      lr <- lift (convertLeftAndRight left right sql.ConvertToDouble) ;;
      modify (set_compareType sql.Float64) ;;;
      ret lr
    else if sql.IsSigned leftType || sql.IsSigned rightType then
      lr <- lift (convertLeftAndRight left right sql.ConvertToSigned) ;;
      modify (set_compareType sql.Int64) ;;;
      ret lr
    else
      lr <- lift (convertLeftAndRight left right sql.ConvertToUnsigned) ;;
      modify (set_compareType sql.Uint64) ;;;
      ret lr
  else
    lr <- lift (convertLeftAndRight left right sql.ConvertToChar) ;;
    modify (set_compareType sql.LongText) ;;;
    ret lr.

(** Compare the two given values using the types of the expressions in the
    comparison. *)
Definition Compare : M (comparison Expression) Z :=
  lr <- evalLeftAndRight ;;
  let left := fst lr in
  let right := snd lr in
  if isNil left || isNil right then fail (errors.New ErrNilOperand []) else
  c <- get ;;
  if sql.Type_eqb (Type_of (Left c)) (Type_of (Right c)) then
    lift (sql.Compare (Type_of (Left c)) left right)
  else
    lr' <- castLeftAndRight left right ;;
    c' <- get ;;
    match compareType c' with
    | Some t => lift (sql.Compare t (fst lr') (snd lr'))
    | None => panic "invalid memory address or nil pointer dereference"
    end.

(** The shape the six [Eval] share: [if err != nil { if
    ErrNilOperand.Is(err) { return nil, nil }; return nil, err }]. *)
Definition orNull (m : M (comparison Expression) Value)
  : M (comparison Expression) Value :=
  fun c =>
    match m c with
    | (Err err, c') =>
        if errors.Is ErrNilOperand err then (Ok nil, c') else (Err err, c')
    | other => other
    end.

Definition Equals_Eval : M (comparison Expression) Value :=
  orNull (result <- Compare ;; ret (VBool (result =? 0)%Z)).

Definition GreaterThan_Eval : M (comparison Expression) Value :=
  orNull (result <- Compare ;; ret (VBool (result =? 1)%Z)).

Definition LessThan_Eval : M (comparison Expression) Value :=
  orNull (result <- Compare ;; ret (VBool (result =? -1)%Z)).

Definition GreaterThanOrEqual_Eval : M (comparison Expression) Value :=
  orNull (result <- Compare ;; ret (VBool (-1 <? result)%Z)).

Definition LessThanOrEqual_Eval : M (comparison Expression) Value :=
  orNull (result <- Compare ;; ret (VBool (result <? 1)%Z)).

(** [re.Compare], [re.Left()], ...: the methods of the embedded
    [comparison]. *)
Definition embedded {A : Type} (m : M (comparison Expression) A)
  : M (regexp Expression) A :=
  zoom (@re_comparison Expression) set_comparison m.

Definition isNone {A : Type} (o : option A) : bool :=
  match o with None => true | Some _ => false end.

(** [re.pool.Get()] and [re.pool.Put(x)] *)
Definition pool_Get : M (regexp Expression) PoolObject :=
  fun re =>
    match pool re with
    | Some p => let (r, p') := Pool_Get p in (r, set_pool (Some p') re)
    | None => (Panic "invalid memory address or nil pointer dereference", re)
    end.

Definition pool_Put (x : PoolObject) : M (regexp Expression) unit :=
  fun re =>
    match pool re with
    | Some p => let (r, p') := Pool_Put x p in (r, set_pool (Some p') re)
    | None => (Panic "invalid memory address or nil pointer dereference", re)
    end.

(** The factory of the pool: it compiles the pattern held by the variable
    [right] of the call that made the pool. *)
Definition newMatcherErrTuple (right : Value) (_ : unit) : Result PoolObject :=
  match right with
  | VString pattern =>
      match regex.New pattern with
      | Ok r => Ok (matcherErrTuple (Some r) None)
      | Err e => Ok (matcherErrTuple None (Some e))
      | Panic p => Panic p
      end
  | _ => Panic "interface conversion: interface {} is not string"
  end.

(** The second half of [compareRegexp], from the comment "for non-cached
    regex every time create a new matcher" on; [left] is the converted left
    value, [right] the converted right value, or [nil] when the right
    operand was not evaluated. *)
Definition matchRegexp (left right : Value) : M (regexp Expression) Value :=
  re <- get ;;
  acquired <-
    (if negb (cached re) then
       pattern <- assertString right ;;
       match regex.New pattern with
       | Ok matcher => ret (Some matcher, None)
       | Err err => ret (None, Some err)
       | Panic p => panic p
       end
     else
       (if isNone (pool re)
        then modify (set_pool (Some {| Pool_New := newMatcherErrTuple right;
                                       objects := [] |}))
        else ret tt) ;;;
       obj <- pool_Get ;;
       match obj with
       | matcherErrTuple matcher err => ret (matcher, err)
       | aMatcher _ =>
           panic "interface conversion: interface {} is not expression.matcherErrTuple"
       end) ;;
  match fst acquired with
  | None =>
      match snd acquired with
      | Some err => fail (errors.New ErrInvalidRegexp [errors.Error_ err])
      | None => panic "invalid memory address or nil pointer dereference"
      end
  | Some matcher =>
      text <- assertString left ;;
      let ok := regex.Match matcher text in
      re' <- get ;;
      (if negb (cached re') then ret tt
       else if isNone (pool re') then ret tt
       else pool_Put (aMatcher matcher)) ;;;
      ret (VBool ok)
  end.

Definition compareRegexp : M (regexp Expression) Value :=
  left <- embedded call_Left_Eval ;;
  if isNil left then ret nil else
  left <- lift (sql.Convert sql.LongText left) ;;
  re <- get ;;
  (* eval right and convert to text *)
  if negb (cached re) || isNone (pool re) then
    right <- embedded call_Right_Eval ;;
    if isNil right then ret nil else
    right <- lift (sql.Convert sql.LongText right) ;;
    matchRegexp left right
  else
    matchRegexp left nil.

Definition Regexp_Eval : M (regexp Expression) Value :=
  re <- get ;;
  if sql.IsText (Type_of (Left (re_comparison re)))
     && sql.IsText (Type_of (Right (re_comparison re)))
  then compareRegexp
  else embedded (orNull (result <- Compare ;; ret (VBool (result =? 0)%Z))).

End Methods.

(** *** Constructors *)

Definition NewEquals (left right : Expression) : Expression :=
  Equals (newComparison left right).

Definition NewGreaterThan (left right : Expression) : Expression :=
  GreaterThan (newComparison left right).

Definition NewLessThan (left right : Expression) : Expression :=
  LessThan (newComparison left right).

Definition NewGreaterThanOrEqual (left right : Expression) : Expression :=
  GreaterThanOrEqual (newComparison left right).

Definition NewLessThanOrEqual (left right : Expression) : Expression :=
  LessThanOrEqual (newComparison left right).

(** Modelled from the spec: [sql.Inspect] of package [sql] (section 4.4,
    "the tree is inspected"), a walk of the tree, each node before its
    children, that stops below a node where [f] answers [false]. *)
Fixpoint Inspect (S : Type) (f : Expression -> S -> bool * S)
    (e : Expression) (s : S) : S :=
  let (descend, s1) := f e s in
  if descend then
    match e with
    | Literal _ _ | GetField _ _ | Opaque _ _ => s1
    | Regexp re =>
        Inspect f (Right (re_comparison re))
          (Inspect f (Left (re_comparison re)) s1)
    | Equals c | GreaterThan c | LessThan c
    | GreaterThanOrEqual c | LessThanOrEqual c =>
        Inspect f (Right c) (Inspect f (Left c) s1)
    end
  else s1.

Definition NewRegexp (left right : Expression) : Expression :=
  let cached :=
    Inspect
      (fun e cached =>
         (true, match e with GetField _ _ => false | _ => cached end))
      right true in
  Regexp {| re_comparison := newComparison left right;
            pool := None;
            cached := cached |}.

(** *** Eval *)

Definition rewrap {S : Type} (wrap : S -> Expression)
    (r : Result Value * S) : Result Value * Expression :=
  (fst r, wrap (snd r)).

(** [e.Eval(ctx, row)]: the result, and the tree as the call leaves it.

    Modelled from the spec for the leaves (section 4.2): a literal is its
    value, [GetField(i)] "returns [row[i]]; out-of-range is a fatal bug". *)
Fixpoint Eval (e : Expression) (row : Row) : Result Value * Expression :=
  match e with
  | Literal value _ => (Ok value, e)
  | GetField fieldIndex _ =>
      (match nth_error row fieldIndex with
       | Some v => Ok v
       | None => Panic "index out of range"
       end, e)
  | Opaque _ eval => (eval row, e)
  | Equals c =>
      rewrap Equals
        (Equals_Eval (Eval (Left c) row) (Eval (Right c) row) c)
  | Regexp re =>
      rewrap Regexp
        (Regexp_Eval (Eval (Left (re_comparison re)) row)
                     (Eval (Right (re_comparison re)) row) re)
  | GreaterThan c =>
      rewrap GreaterThan
        (GreaterThan_Eval (Eval (Left c) row) (Eval (Right c) row) c)
  | LessThan c =>
      rewrap LessThan
        (LessThan_Eval (Eval (Left c) row) (Eval (Right c) row) c)
  | GreaterThanOrEqual c =>
      rewrap GreaterThanOrEqual
        (GreaterThanOrEqual_Eval (Eval (Left c) row) (Eval (Right c) row) c)
  | LessThanOrEqual c =>
      rewrap LessThanOrEqual
        (LessThanOrEqual_Eval (Eval (Left c) row) (Eval (Right c) row) c)
  end.

(** The receiver after its two children were evaluated. *)
Definition evaluated (Left_Eval Right_Eval : Result Value * Expression)
    (c : comparison Expression) : comparison Expression :=
  set_Right (snd Right_Eval) (set_Left (snd Left_Eval) c).

(** [c.Compare(ctx, row)] for a comparison [c] of the tree. *)
Definition Compare_at (c : comparison Expression) (row : Row)
  : Result Z * comparison Expression :=
  Compare (Eval (Left c) row) (Eval (Right c) row) c.

(** *** The priority ladder, as the specification words it

    "Selects a common type by the following priority ladder (first
    matching rule wins)": each rung has a condition on the two static
    types, the conversion applied to both sides, and the common type. *)

Record Rung : Type := {
  condition : sql.Type_ -> sql.Type_ -> bool;
  coerceTo : string;
  commonType : sql.Type_ -> sql.Type_ -> sql.Type_
}.

Definition either (test : sql.Type_ -> bool) (l r : sql.Type_) : bool :=
  test l || test r.

Definition ladder : list Rung :=
  [ {| condition := fun l r => either sql.IsNumber l r && either sql.IsDecimal l r;
       coerceTo := sql.ConvertToDecimal;
       commonType := fun l r => if sql.IsDecimal l then l else r |};
    {| condition := fun l r => either sql.IsNumber l r && either sql.IsFloat l r;
       coerceTo := sql.ConvertToDouble;
       commonType := fun _ _ => sql.Float64 |};
    {| condition := fun l r => either sql.IsNumber l r && either sql.IsSigned l r;
       coerceTo := sql.ConvertToSigned;
       commonType := fun _ _ => sql.Int64 |};
    {| condition := fun l r => either sql.IsNumber l r;
       coerceTo := sql.ConvertToUnsigned;
       commonType := fun _ _ => sql.Uint64 |};
    {| condition := fun l r => negb (either sql.IsNumber l r);
       coerceTo := sql.ConvertToChar;
       commonType := fun _ _ => sql.LongText |} ].

(** The first rung whose condition holds; the conditions of the last two
    rungs are complementary, so there is always one. *)
Definition rung (l r : sql.Type_) : option Rung :=
  find (fun g => condition g l r) ladder.

(** Step 4 and step 5 of the kernel: coerce both sides as the rung says and
    compare them in its common type. *)
Definition ladderCompare (leftType rightType : sql.Type_) (left right : Value)
  : Result Z :=
  match rung leftType rightType with
  | None => Panic "no rung applies"
  | Some g =>
      match sql.convertValue left (coerceTo g) with
      | Ok l' =>
          match sql.convertValue right (coerceTo g) with
          | Ok r' => sql.Compare (commonType g leftType rightType) l' r'
          | Err e => Err e
          | Panic p => Panic p
          end
      | Err e => Err e
      | Panic p => Panic p
      end
  end.

(** *** The tree without what evaluation writes

    [skeleton e] is [e] with every [compareType] and every [pool] set to
    [nil]: the operators, the operands, the literals, the types and the
    [cached] flags stay. *)
Fixpoint skeleton (e : Expression) : Expression :=
  let blank (c : comparison Expression) :=
    {| Left := skeleton (Left c);
       Right := skeleton (Right c);
       compareType := None |} in
  match e with
  | Literal _ _ | GetField _ _ | Opaque _ _ => e
  | Equals c => Equals (blank c)
  | Regexp re =>
      Regexp {| re_comparison := blank (re_comparison re);
                pool := None;
                cached := cached re |}
  | GreaterThan c => GreaterThan (blank c)
  | LessThan c => LessThan (blank c)
  | GreaterThanOrEqual c => GreaterThanOrEqual (blank c)
  | LessThanOrEqual c => LessThanOrEqual (blank c)
  end.

(** The test of [Regexp.Eval]: both operands are of a text type. *)
Definition bothText (re : regexp Expression) : bool :=
  sql.IsText (Type_of (Left (re_comparison re)))
  && sql.IsText (Type_of (Right (re_comparison re))).

(** The [comparison] embedded in an operator node. *)
Definition comparison_of (e : Expression) : option (comparison Expression) :=
  match e with
  | Literal _ _ | GetField _ _ | Opaque _ _ => None
  | Regexp re => Some (re_comparison re)
  | Equals c | GreaterThan c | LessThan c
  | GreaterThanOrEqual c | LessThanOrEqual c => Some c
  end.

(** The pool a cached [Regexp] holds after its first evaluation: the
    factory made for the pattern, and the matcher that was put back. *)
Definition poolAfter (pattern : string) (m : regex.Matcher) : Pool :=
  {| Pool_New := newMatcherErrTuple (VString pattern);
     objects := [aMatcher m] |}.

(** The skeletons of the two operands of a comparison, and with them the
    [cached] flag of a [Regexp]. *)
Definition operands (l r : Expression) (c : comparison Expression) : Prop :=
  skeleton (Left c) = l /\ skeleton (Right c) = r.

Definition operandsAndFlag (l r : Expression) (b : bool)
    (re : regexp Expression) : Prop :=
  operands l r (re_comparison re) /\ cached re = b.

End Nodes.

End expression.

(** ** Package analyzer: analyzer.go *)

Module opentracing.

Inductive TagValue : Type :=
| TagString (s : string)
| TagBool (b : bool).

(** A span: the tags set on it so far, oldest first, and whether [Finish]
    was called. *)
Record Span : Type := {
  operationName : string;
  tags : list (string * TagValue);
  finished : bool
}.

Definition StartSpan (name : string) (t : list (string * TagValue)) : Span :=
  {| operationName := name; tags := t; finished := false |}.

Definition SetTag (key : string) (value : TagValue) (span : Span) : Span :=
  {| operationName := operationName span;
     tags := tags span ++ [(key, value)];
     finished := finished span |}.

Definition Finish (span : Span) : Span :=
  {| operationName := operationName span;
     tags := tags span;
     finished := true |}.

Definition Tag (key : string) (span : Span) : option TagValue :=
  option_map snd
    (find (fun kv => String.eqb key (fst kv)) (rev (tags span))).

End opentracing.

Module analyzer.

Import opentracing.

Definition maxAnalysisIterations : nat := 1000.

(** ErrMaxAnalysisIters is thrown when the analysis iterations are
    exceeded *)
Definition ErrMaxAnalysisIters : errors.Kind :=
  errors.NewKind "exceeded max analysis iterations (%d)".

(** ErrInAnalysis is thrown for generic analyzer errors *)
Definition ErrInAnalysis : errors.Kind :=
  errors.NewKind "error in analysis: %s".

(** ErrInvalidNodeType is thrown when the analyzer can't handle a
    particular kind of node type *)
Definition ErrInvalidNodeType : errors.Kind :=
  errors.NewKind "%s: invalid node of type: %T".

(** What the driver uses of the plan tree, of [Scope], [sql.Catalog] and
    [Rule]; none of them is defined in [analyzer.go]. *)
Class Plans : Type := {
  Node : Type;
  Node_String : Node -> string;
  Node_Resolved : Node -> bool;
  Scope : Type;
  Catalog : Type;
  Rule : Type
}.

Section Driver.

Context {P : Plans}.

(** [Batch] is declared in [batch.go]; [Build] names its fields. *)
Record Batch : Type := {
  Desc : string;
  Iterations : nat;
  Rules : list Rule
}.

(** Analyzer analyzes nodes of the execution plan and applies rules and
    validations to them. *)
Record Analyzer : Type := {
  Debug : bool;
  Verbose : bool;
  contextStack : list string;
  Parallelism : Z;
  Batches : list Batch;
  Catalog_ : option Catalog
}.

Definition set_contextStack (stack : list string) (a : Analyzer) : Analyzer :=
  {| Debug := Debug a;
     Verbose := Verbose a;
     contextStack := stack;
     Parallelism := Parallelism a;
     Batches := Batches a;
     Catalog_ := Catalog_ a |}.

(** PushDebugContext pushes the given context string onto the context
    stack, to use when logging debug messages.  The receiver of every
    method below is an analyzer that exists, so the guard [a != nil]
    holds. *)
Definition PushDebugContext (msg : string) (a : Analyzer) : Analyzer :=
  set_contextStack (contextStack a ++ [msg]) a.

(** PopDebugContext pops a context message off the context stack. *)
Definition PopDebugContext (a : Analyzer) : Analyzer :=
  if (0 <? List.length (contextStack a))%nat
  then set_contextStack (removelast (contextStack a)) a
  else a.

(** [batch.Eval(ctx, a, n, scope)] of [batch.go]: it may change the
    analyzer it is given, and returns a node, which may be [nil], and an
    error, which may be [nil]. *)
Class Evaluator : Type := {
  Batch_Eval :
    Batch -> Analyzer -> option Node -> option Scope ->
    Analyzer * (option Node * option errors.Error)
}.

Context {B : Evaluator}.

(** How the [for] loop of [Analyze] ends: at its [return n, err], or after
    the last batch, with the variables [n] and [err] as the last iteration
    left them. *)
Inductive Loop : Type :=
| Returned (a : Analyzer) (n : option Node) (err : errors.Error)
| Finished (a : Analyzer) (n : option Node) (err : option errors.Error).

(** [for _, batch := range a.Batches { ... }]: the slice is read once, when
    the loop starts.  [a.Log] writes to the process logger and changes
    nothing in the analyzer; the log is left out. *)
Fixpoint rangeBatches (batches : list Batch) (scope : option Scope)
    (a : Analyzer) (n : option Node) (err : option errors.Error) : Loop :=
  match batches with
  | [] => Finished a n err
  | batch :: rest =>
      let a1 := PushDebugContext (Desc batch) a in
      let '(a2, (n', err')) := Batch_Eval batch a1 n scope in
      match err' with
      | Some e =>
          let a3 := PopDebugContext a2 in
          if errors.Is ErrMaxAnalysisIters e
          then rangeBatches rest scope a3 n' err'
          else Returned a3 n' e
      | None =>
          let a3 := PopDebugContext a2 in
          rangeBatches rest scope a3 n' err'
      end
  end.

(** What a call of [Analyze] leaves behind: the pair it returns, the
    analyzer, and the span it opened. *)
Record Analysis : Type := {
  node : option Node;
  err : option errors.Error;
  analyzer : Analyzer;
  span : Span
}.

(** Analyze applies the transformation rules to the node given. In the case
    of an error, the last successfully transformed node is returned along
    with the error. *)
Definition Analyze (a : Analyzer) (n : Node) (scope : option Scope)
  : Analysis :=
  let span := StartSpan "analyze" [("plan", TagString (Node_String n))] in
  match rangeBatches (Batches a) scope a (Some n) None with
  | Returned a' n' e =>
      {| node := n'; err := Some e; analyzer := a'; span := span |}
  | Finished a' n' err' =>
      (* the function deferred after the loop runs at this return *)
      let span1 :=
        match n' with
        | Some m => SetTag "IsResolved" (TagBool (Node_Resolved m)) span
        | None => span
        end in
      {| node := n'; err := err'; analyzer := a'; span := Finish span1 |}
  end.

Definition analyzerOf (l : Loop) : Analyzer :=
  match l with
  | Returned a _ _ => a
  | Finished a _ _ => a
  end.

(** Batch evaluations that leave the context stack as they found it. *)
Definition stackNeutral : Prop :=
  forall (b : Batch) (a : Analyzer) (n : option Node) (scope : option Scope),
    contextStack (fst (Batch_Eval b a n scope)) = contextStack a.

End Driver.

End analyzer.

(** ** An implementation of the two interfaces

    Closed examples need SQL types and a regular expression engine to run
    on.  Every general result of this file is stated for all
    implementations; this one serves the concrete scenarios only. *)

Module fragment.

Local Open Scope Z_scope.

Definition ErrConvert : errors.Kind :=
  errors.NewKind "value %v can't be converted to %s".

Inductive Type_ : Type :=
| Boolean | Int64 | Uint64 | Float64 | Decimal | Text | LongText.

Definition Type_eq_dec (a b : Type_) : {a = b} + {a <> b}.
Proof. decide equality. Defined.

Definition IsSigned (t : Type_) : bool :=
  match t with Int64 => true | _ => false end.

Definition IsUnsigned (t : Type_) : bool :=
  match t with Uint64 => true | _ => false end.

Definition IsFloat (t : Type_) : bool :=
  match t with Float64 => true | _ => false end.

Definition IsDecimal (t : Type_) : bool :=
  match t with Decimal => true | _ => false end.

Definition IsNumber (t : Type_) : bool :=
  IsSigned t || IsUnsigned t || IsFloat t || IsDecimal t.

Definition IsText (t : Type_) : bool :=
  match t with Text | LongText => true | _ => false end.

Definition isDigit (c : ascii) : bool :=
  (48 <=? nat_of_ascii c)%nat && (nat_of_ascii c <=? 57)%nat.

Fixpoint digits (s : string) (acc : Z) : option Z :=
  match s with
  | EmptyString => Some acc
  | String c rest =>
      if isDigit c
      then digits rest (10 * acc + (Z.of_nat (nat_of_ascii c) - 48))
      else None
  end.

(** A decimal integer literal: an optional sign and at least one digit. *)
Definition parseInt (s : string) : option Z :=
  match s with
  | EmptyString => None
  | String "-" EmptyString | String "+" EmptyString => None
  | String "-" rest => option_map Z.opp (digits rest 0)
  | String "+" rest => digits rest 0
  | _ => digits s 0
  end.

Definition formatInt (n : Z) : string :=
  NilZero.string_of_int (Z.to_int n).

Definition float64 (n : Z) : spec_float := binary_normalize 53 1024 n 0 false.

(** The integer part of a finite float ([int64(f)] of Go rounds to zero). *)
Definition truncate (f : spec_float) : option Z :=
  match f with
  | S754_zero _ => Some 0
  | S754_finite s m e =>
      let magnitude :=
        if (0 <=? e) then Z.pos m * 2 ^ e else Z.pos m / 2 ^ (- e) in
      Some (if s then - magnitude else magnitude)
  | _ => None
  end.

(** A finite float as a decimal [(coefficient, exponent)], exactly:
    [m * 2^e = (m * 5^-e) * 10^e] when [e < 0]. *)
Definition exactDecimal (f : spec_float) : option (Z * Z) :=
  match f with
  | S754_zero _ => Some (0, 0)
  | S754_finite s m e =>
      let sign (z : Z) := if s then - z else z in
      Some (if (0 <=? e) then (sign (Z.pos m * 2 ^ e), 0)
            else (sign (Z.pos m * 5 ^ (- e)), e))
  | _ => None
  end.

Definition cannot (v : string) (t : string) : Result Value :=
  Err (errors.New ErrConvert [v; t]).

Definition inRange (lo hi : Z) (wrap : Z -> Value) (t : string) (n : Z)
  : Result Value :=
  if (lo <=? n) && (n <=? hi) then Ok (wrap n)
  else cannot (formatInt n) t.

Definition toInteger (lo hi : Z) (wrap : Z -> Value) (t : string) (v : Value)
  : Result Value :=
  match v with
  | VInt64 n | VUint64 n => inRange lo hi wrap t n
  | VBool b => Ok (wrap (if b then 1 else 0))
  | VFloat64 f =>
      match truncate f with
      | Some n => inRange lo hi wrap t n
      | None => cannot "float" t
      end
  | VString s =>
      match parseInt s with
      | Some n => inRange lo hi wrap t n
      | None => cannot s t
      end
  | _ => cannot "value" t
  end.

Definition toDouble (v : Value) : Result Value :=
  match v with
  | VFloat64 f => Ok (VFloat64 f)
  | VInt64 n | VUint64 n => Ok (VFloat64 (float64 n))
  | VBool b => Ok (VFloat64 (float64 (if b then 1 else 0)))
  | VString s =>
      match parseInt s with
      | Some n => Ok (VFloat64 (float64 n))
      | None => cannot s "double"
      end
  | _ => cannot "value" "double"
  end.

Definition toDecimal (v : Value) : Result Value :=
  match v with
  | VDecimal c e => Ok (VDecimal c e)
  | VInt64 n | VUint64 n => Ok (VDecimal n 0)
  | VBool b => Ok (VDecimal (if b then 1 else 0) 0)
  | VFloat64 f =>
      match exactDecimal f with
      | Some (c, e) => Ok (VDecimal c e)
      | None => cannot "float" "decimal"
      end
  | VString s =>
      match parseInt s with
      | Some n => Ok (VDecimal n 0)
      | None => cannot s "decimal"
      end
  | _ => cannot "value" "decimal"
  end.

Definition toChar (v : Value) : Result Value :=
  match v with
  | VString s => Ok (VString s)
  | VBytes b => Ok (VString (string_of_list_ascii b))
  | VInt64 n | VUint64 n => Ok (VString (formatInt n))
  | VBool b => Ok (VString (if b then "true" else "false"))
  | _ => cannot "value" "char"
  end.

Definition toBoolean (v : Value) : Result Value :=
  match v with
  | VBool b => Ok (VBool b)
  | VInt64 n | VUint64 n => Ok (VBool (negb (n =? 0)%Z))
  | _ => cannot "value" "boolean"
  end.

(** Modelled from the spec: [t.Convert(v)] (section 4.1, "coerces any raw
    value to this type or fails with a typed error"), for the seven types of
    this fragment of package sql. *)
Definition Convert (t : Type_) (v : Value) : Result Value :=
  match t with
  | Boolean => toBoolean v
  | Int64 => toInteger (- 2 ^ 63) (2 ^ 63 - 1) VInt64 "signed" v
  | Uint64 => toInteger 0 (2 ^ 64 - 1) VUint64 "unsigned" v
  | Float64 => toDouble v
  | Decimal => toDecimal v
  | Text | LongText => toChar v
  end.

Definition sign (c : Datatypes.comparison) : Z :=
  match c with Lt => -1 | Eq => 0 | Gt => 1 end.

Definition compareDecimal (c1 e1 c2 e2 : Z) : Datatypes.comparison :=
  let e := Z.min e1 e2 in
  (c1 * 10 ^ (e1 - e) ?= c2 * 10 ^ (e2 - e))%Z.

(** The order of two values of one type. *)
Definition order (a b : Value) : Result Z :=
  match a, b with
  | VBool x, VBool y =>
      Ok (sign (Z.compare (if x then 1 else 0) (if y then 1 else 0)))
  | VInt64 x, VInt64 y => Ok (sign (x ?= y)%Z)
  | VUint64 x, VUint64 y => Ok (sign (x ?= y)%Z)
  | VFloat64 x, VFloat64 y =>
      Ok (match SFcompare x y with Some c => sign c | None => 1 end)
  | VDecimal c1 e1, VDecimal c2 e2 => Ok (sign (compareDecimal c1 e1 c2 e2))
  | VString x, VString y => Ok (sign (String.compare x y))
  | _, _ => Panic "interface conversion"
  end.

(** Modelled from the spec: [t.Compare(a, b)] (section 4.1, "returns
    [-1|0|+1] by the type's natural order"), on the two values converted to
    [t]. *)
Definition Compare (t : Type_) (a b : Value) : Result Z :=
  match Convert t a with
  | Ok a' =>
      match Convert t b with
      | Ok b' => order a' b'
      | Err e => Err e
      | Panic p => Panic p
      end
  | Err e => Err e
  | Panic p => Panic p
  end.

(** Modelled from the spec: [convertValue] (section 4.1, "conversion
    targets used by implicit coercion: ToSigned (i64), ToUnsigned (u64),
    ToDouble (f64), ToDecimal, ToChar (UTF-8 string)"). *)
Definition convertValue (v : Value) (castTo : string) : Result Value :=
  if String.eqb castTo "signed" then Convert Int64 v
  else if String.eqb castTo "unsigned" then Convert Uint64 v
  else if String.eqb castTo "double" then Convert Float64 v
  else if String.eqb castTo "decimal" then Convert Decimal v
  else if String.eqb castTo "char" then Convert LongText v
  else Ok nil.

#[global] Instance SQL : sql.Package := {|
  sql.Type_ := Type_;
  sql.Type_eq_dec := Type_eq_dec;
  sql.IsNumber := IsNumber;
  sql.IsDecimal := IsDecimal;
  sql.IsFloat := IsFloat;
  sql.IsSigned := IsSigned;
  sql.IsText := IsText;
  sql.Boolean := Boolean;
  sql.Int64 := Int64;
  sql.Uint64 := Uint64;
  sql.Float64 := Float64;
  sql.LongText := LongText;
  sql.Compare := Compare;
  sql.Convert := Convert;
  sql.convertValue := convertValue;
  sql.ConvertToDecimal := "decimal";
  sql.ConvertToDouble := "double";
  sql.ConvertToSigned := "signed";
  sql.ConvertToUnsigned := "unsigned";
  sql.ConvertToChar := "char"
|}.

(** A small regular expression engine: literal characters, [.], a postfix
    [*] on one character, and the anchors [^] and [$]. *)

Definition ErrSyntax : errors.Kind :=
  errors.NewKind "error parsing regexp: %s".

Fixpoint matchstar (c : ascii) (rest : string -> bool) (text : string) : bool :=
  rest text
  || match text with
     | String t text' =>
         (Ascii.eqb c "." || Ascii.eqb c t) && matchstar c rest text'
     | EmptyString => false
     end.

Fixpoint matchhere (re : string) (text : string) : bool :=
  match re with
  | EmptyString => true
  | String c re' =>
      match re' with
      | String "*" re'' => matchstar c (matchhere re'') text
      | EmptyString =>
          if Ascii.eqb c "$" then
            match text with EmptyString => true | _ => false end
          else
            match text with
            | String t text' =>
                (Ascii.eqb c "." || Ascii.eqb c t) && matchhere re' text'
            | EmptyString => false
            end
      | _ =>
          match text with
          | String t text' =>
              (Ascii.eqb c "." || Ascii.eqb c t) && matchhere re' text'
          | EmptyString => false
          end
      end
  end.

Fixpoint matchanywhere (re : string) (text : string) : bool :=
  matchhere re text
  || match text with
     | String _ text' => matchanywhere re text'
     | EmptyString => false
     end.

Definition Match (re : string) (text : string) : bool :=
  match re with
  | String "^" re' => matchhere re' text
  | _ => matchanywhere re text
  end.

(** A pattern does not begin with [*]. *)
Definition New (pattern : string) : Result string :=
  match pattern with
  | String "*" _ | String "^" (String "*" _) =>
      Err (errors.New ErrSyntax ["missing argument to repetition operator"])
  | _ => Ok pattern
  end.

#[global] Instance RE : regex.Package := {|
  regex.Matcher := string;
  regex.New := New;
  regex.Match := Match
|}.

End fragment.

(** ** A plan tree and a batch evaluator to run the driver on *)

Module plans.

(** Modelled from the spec: the plan tree (section 3, "variants:
    UnresolvedTable, ResolvedTable, ..., Limit"), three of its variants. *)
Inductive Plan : Type :=
| UnresolvedTable (name : string)
| ResolvedTable (name : string)
| Limit (size : nat) (child : Plan).

Fixpoint Plan_String (p : Plan) : string :=
  match p with
  | UnresolvedTable name => "UnresolvedTable(" ++ name ++ ")"
  | ResolvedTable name => "Table(" ++ name ++ ")"
  | Limit size child =>
      "Limit(" ++ NilZero.string_of_uint (Nat.to_uint size) ++ ")/"
      ++ Plan_String child
  end.

(** "A plan is resolved when every node ... is resolved." *)
Fixpoint Resolved (p : Plan) : bool :=
  match p with
  | UnresolvedTable _ => false
  | ResolvedTable _ => true
  | Limit _ child => Resolved child
  end.

(** Structural equality, "deep value equality of the immutable tree". *)
Fixpoint Plan_eqb (p q : Plan) : bool :=
  match p, q with
  | UnresolvedTable a, UnresolvedTable b => String.eqb a b
  | ResolvedTable a, ResolvedTable b => String.eqb a b
  | Limit m c, Limit n d => Nat.eqb m n && Plan_eqb c d
  | _, _ => false
  end.

(** Modelled from the spec: a rule (section 3, "[{name, fn}]; pure modulo
    logging"), here a function of the plan alone. *)
Record Rule : Type := {
  Name : string;
  Apply : Plan -> Plan + errors.Error
}.

#[global] Instance P : analyzer.Plans := {|
  analyzer.Node := Plan;
  analyzer.Node_String := Plan_String;
  analyzer.Node_Resolved := Resolved;
  analyzer.Scope := unit;
  analyzer.Catalog := unit;
  analyzer.Rule := Rule
|}.

(** One pass: "for each rule [r]: [plan <- r.fn(...)]; on error, return
    [(plan_before_this_rule, err)]". *)
Fixpoint evalOnce (rules : list Rule) (plan : Plan)
  : Plan * option errors.Error :=
  match rules with
  | [] => (plan, None)
  | r :: rest =>
      match Apply r plan with
      | inl plan' => evalOnce rest plan'
      | inr e => (plan, Some e)
      end
  end.

(** "Repeat up to [max_iterations]: ...; if [plan] is structurally equal to
    [prev], stop; else [prev <- plan] and continue.  If the loop exits
    because the bound was hit without convergence, return
    [(plan, MaxAnalysisIters)]." *)
Fixpoint iterate (bound : nat) (max_iterations : nat) (rules : list Rule)
    (prev : Plan) : Plan * option errors.Error :=
  match bound with
  | O =>
      (prev,
       Some (errors.New analyzer.ErrMaxAnalysisIters
               [NilZero.string_of_uint (Nat.to_uint max_iterations)]))
  | S bound' =>
      match evalOnce rules prev with
      | (plan, Some e) => (plan, Some e)
      | (plan, None) =>
          if Plan_eqb plan prev then (plan, None)
          else iterate bound' max_iterations rules plan
      end
  end.

(** Modelled from the spec: [Batch.Eval] of [analyzer/batch.go] (section
    4.5, "Batch evaluation").  It leaves the analyzer as it
    is. *)
Definition Batch_Eval (b : analyzer.Batch) (a : analyzer.Analyzer)
    (n : option Plan) (scope : option unit)
  : analyzer.Analyzer * (option Plan * option errors.Error) :=
  match n with
  | None => (a, (None, None))
  | Some plan =>
      let (plan', e) :=
        iterate (analyzer.Iterations b) (analyzer.Iterations b)
                (analyzer.Rules b) plan in
      (a, (Some plan', e))
  end.

#[global] Instance B : analyzer.Evaluator := {|
  analyzer.Batch_Eval := Batch_Eval
|}.

(** Three rules: one that converges, one that never does, and a
    validation. *)
Fixpoint resolve (p : Plan) : Plan :=
  match p with
  | UnresolvedTable name => ResolvedTable name
  | ResolvedTable name => ResolvedTable name
  | Limit size child => Limit size (resolve child)
  end.

Definition resolve_tables : Rule :=
  {| Name := "resolve_tables"; Apply := fun p => inl (resolve p) |}.

Definition widen_limit : Rule :=
  {| Name := "widen_limit";
     Apply := fun p =>
       inl match p with
           | Limit size child => Limit (S size) child
           | _ => Limit 0 p
           end |}.

Definition validate_resolved : Rule :=
  {| Name := "validate_resolved";
     Apply := fun p =>
       if Resolved p then inl p
       else inr (errors.New analyzer.ErrInAnalysis ["plan is not resolved"]) |}.

Definition newAnalyzer (batches : list analyzer.Batch) : analyzer.Analyzer :=
  {| analyzer.Debug := false;
     analyzer.Verbose := false;
     analyzer.contextStack := [];
     analyzer.Parallelism := 0;
     analyzer.Batches := batches;
     analyzer.Catalog_ := None |}.

Definition batch (desc : string) (iterations : nat) (rules : list Rule)
  : analyzer.Batch :=
  {| analyzer.Desc := desc;
     analyzer.Iterations := iterations;
     analyzer.Rules := rules |}.

End plans.

(** ** The scenarios of the specification (section 8) and two analyzers *)

Module scenarios.

Import expression.

Definition int64 (n : Z) : Expression := Literal (VInt64 n) fragment.Int64.

Definition double (n : Z) : Expression :=
  Literal (VFloat64 (fragment.float64 n)) fragment.Float64.

Definition text (s : string) : Expression :=
  Literal (VString s) fragment.Text.

(** Scenario 2: [NULL] and [1], both of type [Int64]. *)
Definition null_and_one : comparison Expression :=
  newComparison (Literal nil fragment.Int64) (int64 1).

(** Scenario 3: [1] of type [Int64] and [2.0] of type [Float64]. *)
Definition one_and_two : comparison Expression :=
  newComparison (int64 1) (double 2).

(** Scenario 4: ["10"] of type [Text] and [9] of type [Int64]. *)
Definition ten_and_nine : comparison Expression :=
  newComparison (text "10") (int64 9).

(** Scenario 5: ["hello" REGEXP "^h.*o$"], as [NewRegexp] builds it. *)
Definition hello : regexp Expression :=
  {| re_comparison := newComparison (text "hello") (text "^h.*o$");
     pool := None;
     cached := true |}.

Definition table : plans.Plan := plans.UnresolvedTable "t".

(** Scenario 6: an analyzer whose only batch never reaches a fixed point. *)
Definition unconverged : analyzer.Analyzer :=
  plans.newAnalyzer [plans.batch "default-rules" 3 [plans.widen_limit]].

(** An analyzer whose only batch is a validation that rejects unresolved
    plans. *)
Definition validating : analyzer.Analyzer :=
  plans.newAnalyzer [plans.batch "validation" 1 [plans.validate_resolved]].

(** An analyzer with a batch that does not converge followed by one that
    does. *)
Definition twoBatches : analyzer.Analyzer :=
  plans.newAnalyzer [plans.batch "default-rules" 3 [plans.widen_limit];
                     plans.batch "post-analyzer" 3 [plans.resolve_tables]].

End scenarios.

(** ** comparison.go: WithChildren, and what [NewRegexp] looks for *)

Module children.

Import expression.

(** Modelled from the spec: [sql.ErrInvalidChildrenNumber] of package [sql]
    (section 6, "InvalidChildrenNumber(node_name, got, want)"). *)
Definition ErrInvalidChildrenNumber : errors.Kind :=
  errors.NewKind "%T: invalid children number, got %d, expected %d".

Section Rebuild.

Context {SQL : sql.Package} {RE : regex.Package}.

(** [sql.ErrInvalidChildrenNumber.New(e, len(children), 2)] *)
Definition invalidChildrenNumber (receiver : string)
    (children : list Expression) : Result Expression :=
  Err (errors.New ErrInvalidChildrenNumber
         [receiver;
          NilZero.string_of_uint (Nat.to_uint (List.length children));
          "2"]).

(** [func (e *Equals) WithChildren(children ...sql.Expression)], and the
    same method of the five other nodes. *)
Definition Equals_WithChildren (children : list Expression)
  : Result Expression :=
  match children with
  | [l; r] => Ok (NewEquals l r)
  | _ => invalidChildrenNumber "*expression.Equals" children
  end.

Definition Regexp_WithChildren (children : list Expression)
  : Result Expression :=
  match children with
  | [l; r] => Ok (NewRegexp l r)
  | _ => invalidChildrenNumber "*expression.Regexp" children
  end.

Definition GreaterThan_WithChildren (children : list Expression)
  : Result Expression :=
  match children with
  | [l; r] => Ok (NewGreaterThan l r)
  | _ => invalidChildrenNumber "*expression.GreaterThan" children
  end.

Definition LessThan_WithChildren (children : list Expression)
  : Result Expression :=
  match children with
  | [l; r] => Ok (NewLessThan l r)
  | _ => invalidChildrenNumber "*expression.LessThan" children
  end.

Definition GreaterThanOrEqual_WithChildren (children : list Expression)
  : Result Expression :=
  match children with
  | [l; r] => Ok (NewGreaterThanOrEqual l r)
  | _ => invalidChildrenNumber "*expression.GreaterThanOrEqual" children
  end.

Definition LessThanOrEqual_WithChildren (children : list Expression)
  : Result Expression :=
  match children with
  | [l; r] => Ok (NewLessThanOrEqual l r)
  | _ => invalidChildrenNumber "*expression.LessThanOrEqual" children
  end.

(** [e.WithChildren(children...)] for a node [e] of this file; the leaves
    have their method elsewhere. *)
Definition WithChildren (e : Expression) (children : list Expression)
  : option (Result Expression) :=
  match e with
  | Literal _ _ | GetField _ _ | Opaque _ _ => None
  | Equals _ => Some (Equals_WithChildren children)
  | Regexp _ => Some (Regexp_WithChildren children)
  | GreaterThan _ => Some (GreaterThan_WithChildren children)
  | LessThan _ => Some (LessThan_WithChildren children)
  | GreaterThanOrEqual _ => Some (GreaterThanOrEqual_WithChildren children)
  | LessThanOrEqual _ => Some (LessThanOrEqual_WithChildren children)
  end.

(** Whether a [GetField] occurs in a tree, at any depth. *)
Fixpoint containsGetField (e : Expression) : bool :=
  match e with
  | GetField _ _ => true
  | Literal _ _ | Opaque _ _ => false
  | Regexp re =>
      containsGetField (Left (re_comparison re))
      || containsGetField (Right (re_comparison re))
  | Equals c | GreaterThan c | LessThan c
  | GreaterThanOrEqual c | LessThanOrEqual c =>
      containsGetField (Left c) || containsGetField (Right c)
  end.

(** [c] with another content of its [compareType] field. *)
Definition with_compareType (t : option sql.Type_)
    (c : comparison Expression) : comparison Expression :=
  {| Left := Left c; Right := Right c; compareType := t |}.

End Rebuild.

End children.

(** ** analyzer.go: the builder *)

Module builder.

Import analyzer.

Definition debugAnalyzerKey : string := "DEBUG_ANALYZER".

(** What [Builder] uses of the rules: [Rule{name, fn}], and the five rule
    lists of [rules.go]. *)
Class Defaults {P : Plans} : Type := {
  RuleFunc : Type;
  newRule : string -> RuleFunc -> Rule;
  OnceBeforeDefault : list Rule;
  DefaultRules : list Rule;
  OnceAfterDefault : list Rule;
  DefaultValidationRules : list Rule;
  OnceAfterAll : list Rule
}.

Section Build.

Context {P : Plans} {D : Defaults}.

(** Builder provides an easy way to generate Analyzer with custom rules and
    options. *)
Record Builder : Type := {
  preAnalyzeRules : list Rule;
  postAnalyzeRules : list Rule;
  preValidationRules : list Rule;
  postValidationRules : list Rule;
  catalog : option Catalog;
  debug : bool;
  parallelism : Z
}.

(** NewBuilder creates a new Builder from a specific catalog. *)
Definition NewBuilder (c : option Catalog) : Builder :=
  {| preAnalyzeRules := [];
     postAnalyzeRules := [];
     preValidationRules := [];
     postValidationRules := [];
     catalog := c;
     debug := false;
     parallelism := 0 |}.

(** WithDebug activates debug on the Analyzer. *)
Definition WithDebug (ab : Builder) : Builder :=
  {| preAnalyzeRules := preAnalyzeRules ab;
     postAnalyzeRules := postAnalyzeRules ab;
     preValidationRules := preValidationRules ab;
     postValidationRules := postValidationRules ab;
     catalog := catalog ab;
     debug := true;
     parallelism := parallelism ab |}.

(** WithParallelism sets the parallelism level on the analyzer. *)
Definition WithParallelism (n : Z) (ab : Builder) : Builder :=
  {| preAnalyzeRules := preAnalyzeRules ab;
     postAnalyzeRules := postAnalyzeRules ab;
     preValidationRules := preValidationRules ab;
     postValidationRules := postValidationRules ab;
     catalog := catalog ab;
     debug := debug ab;
     parallelism := n |}.

(** AddPreAnalyzeRule adds a new rule to the analyze before the standard
    analyzer rules. *)
Definition AddPreAnalyzeRule (name : string) (fn : RuleFunc) (ab : Builder)
  : Builder :=
  {| preAnalyzeRules := preAnalyzeRules ab ++ [newRule name fn];
     postAnalyzeRules := postAnalyzeRules ab;
     preValidationRules := preValidationRules ab;
     postValidationRules := postValidationRules ab;
     catalog := catalog ab;
     debug := debug ab;
     parallelism := parallelism ab |}.

(** AddPostAnalyzeRule adds a new rule to the analyzer after standard
    analyzer rules. *)
Definition AddPostAnalyzeRule (name : string) (fn : RuleFunc) (ab : Builder)
  : Builder :=
  {| preAnalyzeRules := preAnalyzeRules ab;
     postAnalyzeRules := postAnalyzeRules ab ++ [newRule name fn];
     preValidationRules := preValidationRules ab;
     postValidationRules := postValidationRules ab;
     catalog := catalog ab;
     debug := debug ab;
     parallelism := parallelism ab |}.

(** AddPreValidationRule adds a new rule to the analyzer before standard
    validation rules. *)
Definition AddPreValidationRule (name : string) (fn : RuleFunc) (ab : Builder)
  : Builder :=
  {| preAnalyzeRules := preAnalyzeRules ab;
     postAnalyzeRules := postAnalyzeRules ab;
     preValidationRules := preValidationRules ab ++ [newRule name fn];
     postValidationRules := postValidationRules ab;
     catalog := catalog ab;
     debug := debug ab;
     parallelism := parallelism ab |}.

(** AddPostValidationRule adds a new rule to the analyzer after standard
    validation rules. *)
Definition AddPostValidationRule (name : string) (fn : RuleFunc)
    (ab : Builder) : Builder :=
  {| preAnalyzeRules := preAnalyzeRules ab;
     postAnalyzeRules := postAnalyzeRules ab;
     preValidationRules := preValidationRules ab;
     postValidationRules := postValidationRules ab ++ [newRule name fn];
     catalog := catalog ab;
     debug := debug ab;
     parallelism := parallelism ab |}.

(** Build creates a new Analyzer using all previous data setted to the
    Builder.  [LookupEnv] is [os.LookupEnv] on the environment of the
    process. *)
Definition Build (LookupEnv : string -> option string) (ab : Builder)
  : Analyzer :=
  let debugEnv :=
    match LookupEnv debugAnalyzerKey with Some _ => true | None => false end in
  let batches :=
    [ {| Desc := "pre-analyzer";
         Iterations := maxAnalysisIterations;
         Rules := preAnalyzeRules ab |};
      {| Desc := "once-before";
         Iterations := 1;
         Rules := OnceBeforeDefault |};
      {| Desc := "default-rules";
         Iterations := maxAnalysisIterations;
         Rules := DefaultRules |};
      {| Desc := "once-after";
         Iterations := 1;
         Rules := OnceAfterDefault |};
      {| Desc := "post-analyzer";
         Iterations := maxAnalysisIterations;
         Rules := postAnalyzeRules ab |};
      {| Desc := "pre-validation";
         Iterations := 1;
         Rules := preValidationRules ab |};
      {| Desc := "validation";
         Iterations := 1;
         Rules := DefaultValidationRules |};
      {| Desc := "post-validation";
         Iterations := 1;
         Rules := postValidationRules ab |};
      {| Desc := "after-all";
         Iterations := 1;
         Rules := OnceAfterAll |} ] in
  {| Debug := debugEnv || debug ab;
     Verbose := false;
     contextStack := [];
     Parallelism := parallelism ab;
     Batches := batches;
     Catalog_ := catalog ab |}.

(** NewDefault creates a default Analyzer instance with all default Rules
    and configuration. *)
Definition NewDefault (LookupEnv : string -> option string)
    (c : option Catalog) : Analyzer :=
  Build LookupEnv (NewBuilder c).

(** The rules of the batches of an analyzer that carry a description. *)
Definition rulesOf (desc : string) (a : Analyzer) : list Rule :=
  flat_map (fun b => if String.eqb desc (Desc b) then Rules b else [])
           (Batches a).

End Build.

(** The rules of [plans], with two of them as defaults. *)
#[global] Instance D : @Defaults plans.P := {|
  RuleFunc := plans.Plan -> plans.Plan + errors.Error;
  newRule := plans.Build_Rule;
  OnceBeforeDefault := [];
  DefaultRules := [plans.resolve_tables];
  OnceAfterDefault := [];
  DefaultValidationRules := [plans.validate_resolved];
  OnceAfterAll := []
|}.

End builder.

(** ** More inputs to run the code on *)

Module examples.

Import expression.

(** An operand whose evaluation fails, and one that fails with the
    sentinel of the kernel. *)
Definition failure : errors.Error :=
  errors.New fragment.ErrConvert ["abc"; "signed"].

Definition failing : Expression :=
  Opaque fragment.Int64 (fun _ => Err failure).

Definition sentinel : Expression :=
  Opaque fragment.Int64 (fun _ => Err (errors.New ErrNilOperand [])).

Definition failing_and_one : comparison Expression :=
  newComparison failing (scenarios.int64 1).

Definition sentinel_and_one : comparison Expression :=
  newComparison sentinel (scenarios.int64 1).

(** Scenario 1 of the specification: [1] and [1], both of type [Int64]. *)
Definition one_and_one : comparison Expression :=
  newComparison (scenarios.int64 1) (scenarios.int64 1).

(** A text that is no number, and [9]. *)
Definition word_and_nine : comparison Expression :=
  newComparison (scenarios.text "abc") (scenarios.int64 9).

(** ["hello" REGEXP <column 0>], as [NewRegexp] builds it. *)
Definition uncached : regexp Expression :=
  {| re_comparison :=
       newComparison (scenarios.text "hello") (GetField 0 fragment.Text);
     pool := None;
     cached := false |}.

(** ["hello" REGEXP "*a"]: the pattern does not compile. *)
Definition invalid : regexp Expression :=
  {| re_comparison :=
       newComparison (scenarios.text "hello") (scenarios.text "*a");
     pool := None;
     cached := true |}.

(** [NULL REGEXP "a"] with text operands, and [NULL REGEXP <failing>] with
    operands of type [Int64]. *)
Definition null_like_a : regexp Expression :=
  {| re_comparison :=
       newComparison (Literal nil fragment.Text) (scenarios.text "a");
     pool := None;
     cached := true |}.

Definition null_like_failing : regexp Expression :=
  {| re_comparison := newComparison (Literal nil fragment.Int64) failing;
     pool := None;
     cached := true |}.

(** [scenarios.hello] after its first evaluation. *)
Definition hello_again : regexp Expression :=
  set_pool (Some (poolAfter "^h.*o$" "^h.*o$")) scenarios.hello.

(** An analyzer whose validation comes first, with a batch after it. *)
Definition validationFirst : analyzer.Analyzer :=
  plans.newAnalyzer [plans.batch "validation" 1 [plans.validate_resolved];
                     plans.batch "post-analyzer" 3 [plans.resolve_tables]].

End examples.

(** [returns Q m]: whenever the method [m] returns without error, what it
    returns satisfies [Q]. *)
Definition returns {S A : Type} (Q : A -> Prop) (m : M S A) : Prop :=
  forall s a, fst (m s) = Ok a -> Q a.

(** A result of type Boolean: NULL, or a Go [bool]. *)
Definition nullOrBool (v : Value) : Prop :=
  v = nil \/ exists b, v = VBool b.

(** * Properties of the comparison expressions *)

Section ComparisonProperties.

Import expression.

Context {SQL : sql.Package} {RE : regex.Package}.

Implicit Types (c : comparison Expression) (re : regexp Expression).
Implicit Types (e : Expression) (row : Row) (L R : Result Value * Expression).

Lemma evalLeftAndRight_Ok L R c l r :
  fst L = Ok l -> fst R = Ok r ->
  evalLeftAndRight L R c = (Ok (l, r), evaluated L R c).
Proof.
  intros HL HR.
  unfold evalLeftAndRight, bind, call_Left_Eval, call_Right_Eval, ret.
  now rewrite HL, HR.
Qed.

Lemma Compare_nil L R c l r :
  fst L = Ok l -> fst R = Ok r -> l = nil \/ r = nil ->
  Compare L R c = (Err (errors.New ErrNilOperand []), evaluated L R c).
Proof.
  intros HL HR Hnil.
  unfold Compare, bind at 1.
  rewrite (evalLeftAndRight_Ok _ _ c HL HR). cbn [fst snd].
  assert (isNil l || isNil r = true) as ->
      by (destruct Hnil; subst; cbn; auto using orb_true_r).
  reflexivity.
Qed.

(** What [orNull] returns, by the result of the kernel. *)
Lemma orNull_bind_Compare L R c (f : Z -> bool) :
  orNull (result <- Compare L R ;; ret (VBool (f result))) c =
  match Compare L R c with
  | (Ok z, c') => (Ok (VBool (f z)), c')
  | (Err err, c') =>
      if errors.Is ErrNilOperand err then (Ok nil, c') else (Err err, c')
  | (Panic p, c') => (Panic p, c')
  end.
Proof.
  unfold orNull, bind.
  destruct (Compare L R c) as [[z | err | p] c']; reflexivity.
Qed.

Lemma Eval_Regexp_generic re row :
  bothText re = false ->
  Eval (Regexp re) row =
  rewrap Regexp
    (embedded (Equals_Eval (Eval (Left (re_comparison re)) row)
                           (Eval (Right (re_comparison re)) row)) re).
Proof.
  intros Htext. unfold bothText in Htext.
  cbn [Eval]. unfold Regexp_Eval, bind at 1, get.
  now rewrite Htext.
Qed.

(** C1.  When both children of a comparison evaluate without error and
    one of the two values is NULL, the kernel fails with [ErrNilOperand]
    and [Eval] of [=], [>], [<], [>=], [<=], and of [REGEXP] on its generic
    path, returns NULL and no error. *)
Theorem null_operand_evaluates_to_NULL c row l r :
  fst (Eval (Left c) row) = Ok l ->
  fst (Eval (Right c) row) = Ok r ->
  l = nil \/ r = nil ->
  fst (Compare_at c row) = Err (errors.New ErrNilOperand [])
  /\ fst (Eval (Equals c) row) = Ok nil
  /\ fst (Eval (GreaterThan c) row) = Ok nil
  /\ fst (Eval (LessThan c) row) = Ok nil
  /\ fst (Eval (GreaterThanOrEqual c) row) = Ok nil
  /\ fst (Eval (LessThanOrEqual c) row) = Ok nil
  /\ forall re,
       re_comparison re = c ->
       sql.IsText (Type_of (Left c)) && sql.IsText (Type_of (Right c)) = false ->
       fst (Eval (Regexp re) row) = Ok nil.
Proof.
  intros HL HR Hnil.
  pose proof (Compare_nil _ _ c HL HR Hnil) as HC.
  repeat split;
    try (unfold Compare_at; now rewrite HC);
    try (cbn [Eval rewrap fst];
         unfold Equals_Eval, GreaterThan_Eval, LessThan_Eval,
           GreaterThanOrEqual_Eval, LessThanOrEqual_Eval;
         now rewrite orNull_bind_Compare, HC).
  intros re <- Htext.
  rewrite (Eval_Regexp_generic _ _ Htext). cbn [rewrap fst].
  unfold embedded, zoom, Equals_Eval.
  now rewrite orNull_bind_Compare, HC.
Qed.

Lemma result_mapping c row z :
  fst (Compare_at c row) = Ok z ->
  (z = -1 \/ z = 0 \/ z = 1)%Z ->
  fst (Eval (Equals c) row) = Ok (VBool (z =? 0)%Z)
  /\ fst (Eval (GreaterThan c) row) = Ok (VBool (z =? 1)%Z)
  /\ fst (Eval (LessThan c) row) = Ok (VBool (z =? -1)%Z)
  /\ fst (Eval (GreaterThanOrEqual c) row) = Ok (VBool (negb (z =? -1)%Z))
  /\ fst (Eval (LessThanOrEqual c) row) = Ok (VBool (negb (z =? 1)%Z)).
Proof.
  unfold Compare_at. intros HC Hz.
  cbn [Eval rewrap fst].
  unfold Equals_Eval, GreaterThan_Eval, LessThan_Eval,
    GreaterThanOrEqual_Eval, LessThanOrEqual_Eval.
  rewrite !orNull_bind_Compare.
  destruct (Compare (Eval (Left c) row) (Eval (Right c) row) c)
    as [[z' | err | p] c']; cbn [fst] in HC; try discriminate.
  injection HC as ->. cbn [fst].
  repeat split; try reflexivity;
    destruct Hz as [-> | [-> | ->]]; reflexivity.
Qed.

Lemma Type_of_Eval e row : Type_of (snd (Eval e row)) = Type_of e.
Proof. destruct e; reflexivity. Qed.

Lemma isNil_false v : v <> nil -> isNil v = false.
Proof. destruct v; congruence || reflexivity. Qed.

Lemma Type_eqb_false (a b : sql.Type_) : a <> b -> sql.Type_eqb a b = false.
Proof. intros H. unfold sql.Type_eqb. now destruct (sql.Type_eq_dec a b). Qed.

(** [castLeftAndRight] takes the first rung of the ladder that applies:
    it converts both values as the rung says, and stores the rung's common
    type when both conversions succeed. *)
Lemma castLeftAndRight_rung c lv rv :
  let leftType := Type_of (Left c) in
  let rightType := Type_of (Right c) in
  exists g,
    rung leftType rightType = Some g
    /\ fst (castLeftAndRight lv rv c) = convertLeftAndRight lv rv (coerceTo g)
    /\ snd (castLeftAndRight lv rv c)
       = match convertLeftAndRight lv rv (coerceTo g) with
         | Ok _ => set_compareType (commonType g leftType rightType) c
         | _ => c
         end.
Proof.
  intros leftType rightType. subst leftType rightType.
  unfold castLeftAndRight, rung, ladder, either, bind, get, lift, modify, ret.
  generalize (Type_of (Left c)) (Type_of (Right c)). intros leftType rightType.
  cbn [find condition].
  destruct (sql.IsNumber leftType || sql.IsNumber rightType); cbn [andb negb];
    [ destruct (sql.IsDecimal leftType || sql.IsDecimal rightType);
      [ | destruct (sql.IsFloat leftType || sql.IsFloat rightType);
          [ | destruct (sql.IsSigned leftType || sql.IsSigned rightType) ] ]
    | ];
    (eexists; split; [ reflexivity | ]); cbn [coerceTo commonType];
    match goal with
    | |- context [convertLeftAndRight lv rv ?t] =>
        destruct (convertLeftAndRight lv rv t) as [lr | e | p]
    end;
    try (destruct (sql.IsDecimal leftType));
    split; reflexivity.
Qed.

Lemma ladderCompare_rung (leftType rightType : sql.Type_) lv rv g :
  rung leftType rightType = Some g ->
  ladderCompare leftType rightType lv rv
  = match convertLeftAndRight lv rv (coerceTo g) with
    | Ok lr => sql.Compare (commonType g leftType rightType) (fst lr) (snd lr)
    | Err e => Err e
    | Panic p => Panic p
    end.
Proof.
  intros Hg. unfold ladderCompare, convertLeftAndRight. rewrite Hg.
  destruct (sql.convertValue lv (coerceTo g)); try reflexivity.
  destruct (sql.convertValue rv (coerceTo g)); reflexivity.
Qed.

(** The kernel on two values that are not NULL and whose static types
    differ. *)
Lemma Compare_at_cast c row l r :
  let leftType := Type_of (Left c) in
  let rightType := Type_of (Right c) in
  let c1 := evaluated (Eval (Left c) row) (Eval (Right c) row) c in
  fst (Eval (Left c) row) = Ok l ->
  fst (Eval (Right c) row) = Ok r ->
  l <> nil -> r <> nil ->
  leftType <> rightType ->
  exists g,
    rung leftType rightType = Some g
    /\ Compare_at c row
       = match convertLeftAndRight l r (coerceTo g) with
         | Ok lr =>
             (sql.Compare (commonType g leftType rightType) (fst lr) (snd lr),
              set_compareType (commonType g leftType rightType) c1)
         | Err e => (Err e, c1)
         | Panic p => (Panic p, c1)
         end.
Proof.
  intros leftType rightType c1 HL HR Hl Hr Hty.
  unfold Compare_at, Compare, bind at 1.
  rewrite (evalLeftAndRight_Ok _ _ c HL HR). cbn [fst snd]. fold c1.
  rewrite (isNil_false Hl), (isNil_false Hr). cbn [orb].
  unfold bind at 1, get.
  assert (Type_of (Left c1) = leftType /\ Type_of (Right c1) = rightType)
    as [HtL HtR] by (split; apply Type_of_Eval).
  rewrite HtL, HtR, (Type_eqb_false Hty).
  destruct (castLeftAndRight_rung c1 l r) as (g & Hg & Hres & Hst).
  rewrite HtL, HtR in Hg, Hst.
  exists g. split; [exact Hg | ].
  unfold bind.
  destruct (castLeftAndRight l r c1) as [res c2]. cbn [fst snd] in Hres, Hst.
  subst res c2.
  destruct (convertLeftAndRight l r (coerceTo g)) as [lr | e | p];
    reflexivity.
Qed.

Lemma Compare_ladder c row l r :
  let leftType := Type_of (Left c) in
  let rightType := Type_of (Right c) in
  fst (Eval (Left c) row) = Ok l ->
  fst (Eval (Right c) row) = Ok r ->
  l <> nil -> r <> nil ->
  leftType <> rightType ->
  fst (Compare_at c row) = ladderCompare leftType rightType l r
  /\ forall g l' r',
       rung leftType rightType = Some g ->
       sql.convertValue l (coerceTo g) = Ok l' ->
       sql.convertValue r (coerceTo g) = Ok r' ->
       compareType (snd (Compare_at c row))
       = Some (commonType g leftType rightType).
Proof.
  intros leftType rightType HL HR Hl Hr Hty.
  destruct (Compare_at_cast c row HL HR Hl Hr Hty) as (g & Hg & ->).
  fold leftType rightType in Hg |- *.
  erewrite ladderCompare_rung by exact Hg.
  split.
  - destruct (convertLeftAndRight l r (coerceTo g)); reflexivity.
  - intros g' l' r' Hg' Hcl Hcr.
    assert (g' = g) as -> by congruence.
    unfold convertLeftAndRight. now rewrite Hcl, Hcr.
Qed.

(** *** What evaluation leaves in place *)

Section Preserves.

Context {S : Type} (I : S -> Prop).

Lemma preserves_ret {A : Type} (a : A) : preserves I (ret a).
Proof. intros s Hs. exact Hs. Qed.

Lemma preserves_fail {A : Type} err : preserves I (@fail S A err).
Proof. intros s Hs. exact Hs. Qed.

Lemma preserves_panic {A : Type} p : preserves I (@panic S A p).
Proof. intros s Hs. exact Hs. Qed.

Lemma preserves_lift {A : Type} (r : Result A) : preserves I (@lift S A r).
Proof. intros s Hs. exact Hs. Qed.

Lemma preserves_get : preserves I get.
Proof. intros s Hs. exact Hs. Qed.

Lemma preserves_modify (f : S -> S) :
  (forall s, I s -> I (f s)) -> preserves I (modify f).
Proof. intros Hf s Hs. exact (Hf s Hs). Qed.

Lemma preserves_bind {A B : Type} (m : M S A) (k : A -> M S B) :
  preserves I m -> (forall a, preserves I (k a)) -> preserves I (bind m k).
Proof.
  intros Hm Hk s Hs. unfold bind.
  specialize (Hm s Hs).
  destruct (m s) as [[a | e | p] s']; cbn [snd] in *; auto.
  now apply Hk.
Qed.

Lemma preserves_if {A : Type} (b : bool) (m1 m2 : M S A) :
  preserves I m1 -> preserves I m2 -> preserves I (if b then m1 else m2).
Proof. now destruct b. Qed.

Lemma preserves_assertString v : preserves I (@assertString S v).
Proof. destruct v; intros st Hst; exact Hst. Qed.

End Preserves.

Lemma preserves_orNull (I : comparison Expression -> Prop) m :
  preserves I m -> preserves I (orNull m).
Proof.
  intros Hm c Hc. unfold orNull. specialize (Hm c Hc).
  destruct (m c) as [[v | err | p] c']; cbn [snd] in *; auto.
  now destruct (errors.Is ErrNilOperand err).
Qed.

Lemma preserves_zoom {S T A : Type} (I : S -> Prop) (J : T -> Prop)
    (proj : S -> T) (upd : T -> S -> S) (m : M T A) :
  (forall s, I s -> J (proj s)) ->
  (forall s t, I s -> J t -> I (upd t s)) ->
  preserves J m -> preserves I (zoom proj upd m).
Proof.
  intros Hproj Hupd Hm s Hs. unfold zoom.
  specialize (Hm (proj s) (Hproj s Hs)).
  destruct (m (proj s)) as [r t]. cbn [snd] in *. auto.
Qed.

Create HintDb frame.

#[local] Hint Resolve preserves_ret preserves_fail preserves_panic
  preserves_lift preserves_get preserves_modify preserves_bind preserves_if
  preserves_assertString preserves_orNull : frame.

(** A property [I] of a comparison that its children may be replaced
    under, and a property [J] of a [Regexp] that holds [I] of the embedded
    comparison and does not depend on the pool. *)
Section Frame.

Variables (L R : Result Value * Expression).
Variable I : comparison Expression -> Prop.
Hypothesis I_Left : forall c, I c -> I (set_Left (snd L) c).
Hypothesis I_Right : forall c, I c -> I (set_Right (snd R) c).
Hypothesis I_compareType : forall t c, I c -> I (set_compareType t c).

Lemma preserves_call_Left_Eval : preserves I (call_Left_Eval L).
Proof. intros c Hc. now apply I_Left. Qed.

Lemma preserves_call_Right_Eval : preserves I (call_Right_Eval R).
Proof. intros c Hc. now apply I_Right. Qed.

Hint Resolve preserves_call_Left_Eval preserves_call_Right_Eval : frame.

Lemma preserves_evalLeftAndRight : preserves I (evalLeftAndRight L R).
Proof. unfold evalLeftAndRight. auto 10 with frame. Qed.

Lemma preserves_castLeftAndRight lv rv :
  preserves I (castLeftAndRight lv rv).
Proof.
  unfold castLeftAndRight.
  apply preserves_bind; [auto with frame | intros c].
  repeat (apply preserves_if); auto 10 with frame.
Qed.

Hint Resolve preserves_evalLeftAndRight preserves_castLeftAndRight : frame.

Lemma preserves_Compare : preserves I (Compare L R).
Proof.
  unfold Compare.
  apply preserves_bind; [auto with frame | intros lr].
  apply preserves_if; [auto with frame | ].
  apply preserves_bind; [auto with frame | intros c].
  apply preserves_if; [auto with frame | ].
  apply preserves_bind; [auto with frame | intros lr'].
  apply preserves_bind; [auto with frame | intros c'].
  destruct (compareType c'); auto with frame.
Qed.

Hint Resolve preserves_Compare : frame.

Lemma preserves_comparison_Eval (f : Z -> bool) :
  preserves I (orNull (result <- Compare L R ;; ret (VBool (f result)))).
Proof. auto 10 with frame. Qed.

Variable J : regexp Expression -> Prop.
Hypothesis J_I : forall re, J re -> I (re_comparison re).
Hypothesis J_comparison : forall re c, J re -> I c -> J (set_comparison c re).
Hypothesis J_pool : forall p re, J re -> J (set_pool p re).

Lemma preserves_embedded {A : Type} (m : M (comparison Expression) A) :
  preserves I m -> preserves J (embedded m).
Proof.
  intros Hm. unfold embedded.
  apply preserves_zoom with (J := I); auto.
Qed.

Lemma preserves_pool_Get : preserves J pool_Get.
Proof.
  intros re Hre. unfold pool_Get.
  destruct (pool re) as [p | ]; [ | exact Hre].
  destruct (Pool_Get p). now apply J_pool.
Qed.

Lemma preserves_pool_Put x : preserves J (pool_Put x).
Proof.
  intros re Hre. unfold pool_Put.
  destruct (pool re) as [p | ]; [ | exact Hre].
  destruct (Pool_Put x p). now apply J_pool.
Qed.

Hint Resolve preserves_embedded preserves_pool_Get preserves_pool_Put
  preserves_comparison_Eval : frame.

Lemma preserves_matchRegexp lv rv : preserves J (matchRegexp lv rv).
Proof.
  unfold matchRegexp.
  apply preserves_bind; [auto with frame | intros re].
  apply preserves_bind.
  - apply preserves_if.
    + apply preserves_bind; [auto with frame | intros pattern].
      destruct (regex.New pattern); auto with frame.
    + apply preserves_bind; [auto with frame | intros _].
      apply preserves_bind; [auto with frame | intros [m e | m]];
        auto with frame.
  - intros [[matcher | ] [err | ]]; cbn [fst snd]; auto 10 with frame.
Qed.

Hint Resolve preserves_matchRegexp : frame.

Lemma preserves_compareRegexp : preserves J (compareRegexp L R).
Proof.
  unfold compareRegexp.
  apply preserves_bind; [auto with frame | intros lv].
  apply preserves_if; [auto with frame | ].
  apply preserves_bind; [auto with frame | intros lv'].
  apply preserves_bind; [auto with frame | intros re].
  apply preserves_if; [ | auto with frame].
  apply preserves_bind; [auto with frame | intros rv].
  auto 10 with frame.
Qed.

Lemma preserves_Regexp_Eval : preserves J (Regexp_Eval L R).
Proof.
  unfold Regexp_Eval.
  apply preserves_bind; [auto with frame | intros re].
  apply preserves_if; [apply preserves_compareRegexp | ].
  auto 10 with frame.
Qed.

End Frame.

(** Evaluation writes nothing but [compareType] fields and pools. *)
Lemma skeleton_Eval e row : skeleton (snd (Eval e row)) = skeleton e.
Proof.
  revert e row. fix skeleton_Eval 1. intros e row.
  assert (forall c,
             let I := operands (skeleton (Left c)) (skeleton (Right c)) in
             (forall c', I c' -> I (set_Left (snd (Eval (Left c) row)) c'))
             /\ (forall c', I c' -> I (set_Right (snd (Eval (Right c) row)) c'))
             /\ (forall t c', I c' -> I (set_compareType t c'))) as Hframe.
  { intros c I. split; [ | split].
    - intros c' [_ Hr]. split; [ | exact Hr].
      exact (skeleton_Eval (Left c) row).
    - intros c' [Hl _]. split; [exact Hl | ].
      exact (skeleton_Eval (Right c) row).
    - intros t c' Hc'. exact Hc'. }
  destruct e as [v t | i t | t f | c | re | c | c | c | c];
    try reflexivity;
    try (destruct (Hframe c) as (HL & HR & HT);
         cbn [Eval rewrap snd skeleton];
         unfold Equals_Eval, GreaterThan_Eval, LessThan_Eval,
           GreaterThanOrEqual_Eval, LessThanOrEqual_Eval;
         match goal with
         | |- context [snd (orNull ?m c)] =>
             assert (operands (skeleton (Left c)) (skeleton (Right c))
                       (snd (orNull m c))) as [Hl Hr]
               by (eapply preserves_comparison_Eval; eauto; now split)
         end;
         now rewrite Hl, Hr).
  destruct (Hframe (re_comparison re)) as (HL & HR & HT).
  assert (operandsAndFlag (skeleton (Left (re_comparison re)))
            (skeleton (Right (re_comparison re))) (cached re)
            (snd (Regexp_Eval (Eval (Left (re_comparison re)) row)
                              (Eval (Right (re_comparison re)) row) re)))
    as [[Hl Hr] Hflag].
  { eapply preserves_Regexp_Eval with
      (I := operands (skeleton (Left (re_comparison re)))
                     (skeleton (Right (re_comparison re)))); eauto.
    - now intros re' [Hc _].
    - intros re' c [_ Hflag] Hc. now split.
    - now repeat split. }
  cbn [Eval rewrap snd skeleton]. now rewrite Hl, Hr, Hflag.
Qed.

(** The kernel writes [compareType] only with the common type of the
    rung that applies. *)
Lemma compareType_Compare_at c row :
  let leftType := Type_of (Left c) in
  let rightType := Type_of (Right c) in
  compareType (snd (Compare_at c row)) = compareType c
  \/ exists g,
       rung leftType rightType = Some g
       /\ compareType (snd (Compare_at c row))
          = Some (commonType g leftType rightType).
Proof.
  intros leftType rightType.
  remember (Compare_at c row) as out eqn:Hout.
  unfold Compare_at, Compare, evalLeftAndRight, bind at 1 2,
    call_Left_Eval, call_Right_Eval in Hout.
  destruct (fst (Eval (Left c) row)) as [l | e | p];
    [ | subst out; now left ..].
  unfold bind at 1 in Hout.
  destruct (fst (Eval (Right c) row)) as [r | e | p];
    [ | subst out; now left ..].
  cbn [ret fst snd] in Hout.
  set (c1 := set_Right _ (set_Left _ c)) in Hout.
  destruct (isNil l || isNil r); [subst out; now left | ].
  unfold bind at 1, get in Hout.
  destruct (sql.Type_eqb (Type_of (Left c1)) (Type_of (Right c1)));
    [subst out; now left | ].
  destruct (castLeftAndRight_rung c1 l r) as (g & Hg & Hres & Hst).
  assert (Type_of (Left c1) = leftType /\ Type_of (Right c1) = rightType)
    as [HtL HtR] by (split; apply Type_of_Eval).
  rewrite HtL, HtR in Hg, Hst.
  unfold bind in Hout.
  destruct (castLeftAndRight l r c1) as [res c2]. cbn [fst snd] in Hres, Hst.
  subst res c2 out.
  destruct (convertLeftAndRight l r (coerceTo g)) as [lr | e | p];
    [ right; exists g; split; [exact Hg | reflexivity] | now left ..].
Qed.

(** *** REGEXP *)

Lemma Eval_Regexp_text re row :
  bothText re = true ->
  Eval (Regexp re) row =
  rewrap Regexp
    (compareRegexp (Eval (Left (re_comparison re)) row)
                   (Eval (Right (re_comparison re)) row) re).
Proof.
  intros Htext. unfold bothText in Htext.
  cbn [Eval]. unfold Regexp_Eval, bind at 1, get.
  now rewrite Htext.
Qed.

(** An evaluation on the regex path of a node without a pool: an uncached
    node, or a cached one evaluated for the first time. *)
Lemma compareRegexp_first L R re l r text pattern m :
  pool re = None ->
  fst L = Ok l -> l <> nil ->
  sql.Convert sql.LongText l = Ok (VString text) ->
  fst R = Ok r -> r <> nil ->
  sql.Convert sql.LongText r = Ok (VString pattern) ->
  regex.New pattern = Ok m ->
  compareRegexp L R re
  = (Ok (VBool (regex.Match m text)),
     let re1 := set_comparison (evaluated L R (re_comparison re)) re in
     if cached re then set_pool (Some (poolAfter pattern m)) re1 else re1).
Proof.
  intros Hpool HL Hl Hcl HR Hr Hcr Hnew.
  assert (newMatcherErrTuple (VString pattern) tt
          = Ok (matcherErrTuple (Some m) None)) as Hfactory
      by (unfold newMatcherErrTuple; now rewrite Hnew).
  destruct re as [c p flag]. cbn [pool] in Hpool. subst p.
  unfold compareRegexp, embedded, zoom, bind, call_Left_Eval, call_Right_Eval,
    get, lift, ret.
  cbn [re_comparison set_comparison pool cached].
  rewrite HL, (isNil_false Hl), Hcl, orb_true_r.
  cbn [re_comparison set_comparison pool cached].
  rewrite HR, (isNil_false Hr), Hcr.
  unfold matchRegexp, bind, get, assertString, ret, modify, pool_Get, pool_Put,
    Pool_Get, Pool_Put, modify.
  cbn [cached pool set_comparison re_comparison].
  destruct flag; cbn [negb isNone set_pool pool cached objects Pool_New].
  - rewrite Hfactory. reflexivity.
  - rewrite Hnew. reflexivity.
Qed.

(** An evaluation on the regex path of a cached node whose pool hands out
    a bare matcher. *)
Lemma compareRegexp_poisoned L R re l lv p m rest :
  cached re = true ->
  pool re = Some p -> objects p = aMatcher m :: rest ->
  fst L = Ok l -> l <> nil ->
  sql.Convert sql.LongText l = Ok lv ->
  fst (compareRegexp L R re)
  = Panic "interface conversion: interface {} is not expression.matcherErrTuple".
Proof.
  intros Hcached Hpool Hobjs HL Hl Hcl.
  destruct re as [c q flag]. cbn [pool cached] in Hpool, Hcached. subst q flag.
  destruct p as [factory objs]. cbn [objects] in Hobjs. subst objs.
  unfold compareRegexp, embedded, zoom, bind, call_Left_Eval, get, lift, ret.
  cbn [re_comparison set_comparison pool cached].
  rewrite HL, (isNil_false Hl), Hcl.
  reflexivity.
Qed.

Lemma snd_orNull_Compare L R c (f : Z -> bool) :
  snd (orNull (result <- Compare L R ;; ret (VBool (f result))) c)
  = snd (Compare L R c).
Proof.
  rewrite orNull_bind_Compare.
  destruct (Compare L R c) as [[z | err | p] c']; try reflexivity.
  now destruct (errors.Is ErrNilOperand err).
Qed.

(** The regex path does not touch [compareType]. *)
Lemma compareType_compareRegexp L R re :
  compareType (re_comparison (snd (compareRegexp L R re)))
  = compareType (re_comparison re).
Proof.
  apply (@preserves_compareRegexp L R
           (fun c => compareType c = compareType (re_comparison re)));
    auto.
Qed.

(** C10.  [Type()] of each of the six comparison nodes is [Boolean],
    whatever its operands are, and evaluating a node does not change its
    type. *)
Theorem comparison_Type_is_Boolean :
  (forall c,
      Type_of (Equals c) = sql.Boolean
      /\ Type_of (GreaterThan c) = sql.Boolean
      /\ Type_of (LessThan c) = sql.Boolean
      /\ Type_of (GreaterThanOrEqual c) = sql.Boolean
      /\ Type_of (LessThanOrEqual c) = sql.Boolean)
  /\ (forall re, Type_of (Regexp re) = sql.Boolean)
  /\ (forall e row, Type_of (snd (Eval e row)) = Type_of e).
Proof.
  repeat split. intros e row. apply Type_of_Eval.
Qed.

(** C7, as amended.  An evaluation leaves the tree as it was up to the
    [compareType] fields and the pools of its comparison nodes: operators,
    operands, literals, types and [cached] flags are the same before and
    after.  The [compareType] of the evaluated node is left as it was, or
    becomes the common type of the rung of the ladder that applies to the
    static types of its operands. *)
Theorem Eval_writes_compareType_and_pool_only e row :
  skeleton (snd (Eval e row)) = skeleton e
  /\ forall c,
       comparison_of e = Some c ->
       exists c',
         comparison_of (snd (Eval e row)) = Some c'
         /\ (compareType c' = compareType c
             \/ exists g,
                  rung (Type_of (Left c)) (Type_of (Right c)) = Some g
                  /\ compareType c'
                     = Some (commonType g (Type_of (Left c))
                                          (Type_of (Right c)))).
Proof.
  split; [apply skeleton_Eval | ].
  intros c Hc.
  destruct e as [v t | i t | t f | c0 | re | c0 | c0 | c0 | c0];
    cbn [comparison_of] in Hc; try discriminate;
    injection Hc as <-;
    try (eexists; split; [reflexivity | ];
         cbn [Eval rewrap snd];
         unfold Equals_Eval, GreaterThan_Eval, LessThan_Eval,
           GreaterThanOrEqual_Eval, LessThanOrEqual_Eval;
         rewrite snd_orNull_Compare;
         exact (compareType_Compare_at _ row)).
  destruct (bothText re) eqn:Htext.
  - rewrite (Eval_Regexp_text _ _ Htext). cbn [rewrap snd comparison_of].
    eexists. split; [reflexivity | ].
    left. apply compareType_compareRegexp.
  - rewrite (Eval_Regexp_generic _ _ Htext). cbn [rewrap snd comparison_of].
    eexists. split; [reflexivity | ].
    unfold embedded, zoom, Equals_Eval.
    destruct (orNull _ (re_comparison re)) as [res c'] eqn:Hout.
    cbn [snd set_comparison re_comparison].
    replace c' with (snd (Compare_at (re_comparison re) row)).
    + exact (compareType_Compare_at _ row).
    + unfold Compare_at. rewrite <- (snd_orNull_Compare _ _ _ (fun z => z =? 0)%Z).
      now rewrite Hout.
Qed.

(** An evaluation on the regex path of a node that is not cached: the
    pattern is compiled for this evaluation, whatever the pool holds. *)
Lemma compareRegexp_every_time L R re l r text pattern m :
  cached re = false ->
  fst L = Ok l -> l <> nil ->
  sql.Convert sql.LongText l = Ok (VString text) ->
  fst R = Ok r -> r <> nil ->
  sql.Convert sql.LongText r = Ok (VString pattern) ->
  regex.New pattern = Ok m ->
  compareRegexp L R re
  = (Ok (VBool (regex.Match m text)),
     set_comparison (evaluated L R (re_comparison re)) re).
Proof.
  intros Hcached HL Hl Hcl HR Hr Hcr Hnew.
  destruct re as [c p flag]. cbn [cached] in Hcached. subst flag.
  unfold compareRegexp, embedded, zoom, bind, call_Left_Eval, call_Right_Eval,
    get, lift, ret.
  cbn [re_comparison set_comparison pool cached negb orb].
  rewrite HL, (isNil_false Hl), Hcl.
  cbn [re_comparison set_comparison pool cached negb orb].
  rewrite HR, (isNil_false Hr), Hcr.
  unfold matchRegexp, bind, get, assertString, ret.
  cbn [cached pool set_comparison re_comparison negb].
  rewrite Hnew. reflexivity.
Qed.

(** The regex path of a node that compiles its pattern at this evaluation:
    the left value, as a string, is matched against the pattern. *)
Lemma Regexp_matches re row l r text pattern m :
  bothText re = true ->
  cached re = false \/ pool re = None ->
  fst (Eval (Left (re_comparison re)) row) = Ok l -> l <> nil ->
  sql.Convert sql.LongText l = Ok (VString text) ->
  fst (Eval (Right (re_comparison re)) row) = Ok r -> r <> nil ->
  sql.Convert sql.LongText r = Ok (VString pattern) ->
  regex.New pattern = Ok m ->
  fst (Eval (Regexp re) row) = Ok (VBool (regex.Match m text)).
Proof.
  intros Htext Hfresh HL Hl Hcl HR Hr Hcr Hnew.
  rewrite (Eval_Regexp_text _ _ Htext).
  destruct Hfresh as [Hcached | Hpool].
  - now rewrite (compareRegexp_every_time _ _ re Hcached
                   HL Hl Hcl HR Hr Hcr Hnew).
  - now rewrite (compareRegexp_first _ _ re Hpool HL Hl Hcl HR Hr Hcr Hnew).
Qed.

(** The regex path of a cached node whose pool hands out a bare matcher:
    nothing is matched. *)
Lemma Regexp_used_pool re row p m rest l lv :
  bothText re = true ->
  cached re = true ->
  pool re = Some p -> objects p = aMatcher m :: rest ->
  fst (Eval (Left (re_comparison re)) row) = Ok l -> l <> nil ->
  sql.Convert sql.LongText l = Ok lv ->
  fst (Eval (Regexp re) row)
  = Panic "interface conversion: interface {} is not expression.matcherErrTuple".
Proof.
  intros Htext Hcached Hpool Hobjs HL Hl Hcl.
  rewrite (Eval_Regexp_text _ _ Htext). cbn [rewrap fst].
  exact (compareRegexp_poisoned _ _ re Hcached Hpool Hobjs HL Hl Hcl).
Qed.

(** The generic path of [Regexp.Eval] is the body of [Equals.Eval] on the
    embedded comparison. *)
Lemma Regexp_like_Equals re row :
  bothText re = false ->
  fst (Eval (Regexp re) row) = fst (Eval (Equals (re_comparison re)) row)
  /\ (exists c',
         snd (Eval (Equals (re_comparison re)) row) = Equals c'
         /\ snd (Eval (Regexp re) row) = Regexp (set_comparison c' re))
  /\ (forall z,
         fst (Compare_at (re_comparison re) row) = Ok z ->
         fst (Eval (Regexp re) row) = Ok (VBool (z =? 0)%Z))
  /\ (forall err,
         fst (Compare_at (re_comparison re) row) = Err err ->
         errors.Is ErrNilOperand err = true ->
         fst (Eval (Regexp re) row) = Ok nil).
Proof.
  intros Htext. rewrite (Eval_Regexp_generic _ _ Htext).
  cbn [Eval rewrap fst snd]. unfold embedded, zoom.
  destruct (Equals_Eval _ _ (re_comparison re)) as [res c'] eqn:Hout.
  cbn [fst snd].
  split; [reflexivity | ].
  split; [exists c'; now split | ].
  unfold Equals_Eval in Hout. rewrite orNull_bind_Compare in Hout.
  unfold Compare_at.
  destruct (Compare _ _ (re_comparison re)) as [[z | err | p] c1];
    cbn [fst]; split; intros x Hx; try discriminate.
  + injection Hx as <-. now injection Hout as <- _.
  + injection Hx as <-. intros Hkind. rewrite Hkind in Hout.
    now injection Hout as <- _.
Qed.

(** After its first evaluation, a cached [Regexp] holds a pool with a bare
    matcher in it, and the next evaluation that reaches the pool panics on
    the type assertion. *)
Lemma Regexp_reuse re row row' l text r pattern m l' lv' :
  cached re = true -> pool re = None ->
  bothText re = true ->
  fst (Eval (Left (re_comparison re)) row) = Ok l -> l <> nil ->
  sql.Convert sql.LongText l = Ok (VString text) ->
  fst (Eval (Right (re_comparison re)) row) = Ok r -> r <> nil ->
  sql.Convert sql.LongText r = Ok (VString pattern) ->
  regex.New pattern = Ok m ->
  fst (Eval (snd (Eval (Left (re_comparison re)) row)) row') = Ok l' ->
  l' <> nil ->
  sql.Convert sql.LongText l' = Ok lv' ->
  fst (Eval (Regexp re) row) = Ok (VBool (regex.Match m text))
  /\ fst (Eval (snd (Eval (Regexp re) row)) row')
     = Panic "interface conversion: interface {} is not expression.matcherErrTuple".
Proof.
  intros Hcached Hpool Htext HL Hl Hcl HR Hr Hcr Hnew HL' Hl' Hcl'.
  rewrite (Eval_Regexp_text _ _ Htext).
  rewrite (compareRegexp_first _ _ re Hpool HL Hl Hcl HR Hr Hcr Hnew).
  rewrite Hcached. cbn [rewrap fst snd]. split; [reflexivity | ].
  set (re1 := set_pool _ _).
  assert (bothText re1 = true) as Htext1.
  { unfold bothText. cbn. rewrite !Type_of_Eval. exact Htext. }
  rewrite (Eval_Regexp_text _ _ Htext1). cbn [rewrap fst].
  eapply compareRegexp_poisoned with (p := poolAfter pattern m);
    try reflexivity; eauto.
Qed.

End ComparisonProperties.
(** * Properties of the analyzer driver *)

Section DriverProperties.

Import opentracing analyzer.

Context {P : Plans} {B : Evaluator}.

Implicit Types (a : Analyzer) (n : option Node) (scope : option Scope).
Implicit Types (err : option errors.Error) (batches : list Batch).

Lemma contextStack_Push msg a :
  contextStack (PushDebugContext msg a) = (contextStack a ++ [msg])%list.
Proof. reflexivity. Qed.

(** A pop undoes the push that came before it. *)
Lemma contextStack_Pop a stack msg :
  contextStack a = (stack ++ [msg])%list ->
  contextStack (PopDebugContext a) = stack.
Proof.
  intros Hstack. unfold PopDebugContext. rewrite Hstack.
  rewrite length_app, Nat.add_comm. cbn [List.length Nat.add Nat.ltb Nat.leb].
  cbn [set_contextStack contextStack]. apply removelast_last.
Qed.

Lemma rangeBatches_contextStack batches :
  stackNeutral ->
  forall scope a n err,
    contextStack (analyzerOf (rangeBatches batches scope a n err))
    = contextStack a.
Proof.
  intros Hneutral scope.
  induction batches as [ | batch rest IH]; intros a n err; [reflexivity | ].
  cbn [rangeBatches].
  pose proof (Hneutral batch (PushDebugContext (Desc batch) a) n scope)
    as Hstack.
  destruct (Batch_Eval batch (PushDebugContext (Desc batch) a) n scope)
    as [a2 [n' err']].
  cbn [fst] in Hstack. rewrite contextStack_Push in Hstack.
  apply contextStack_Pop in Hstack.
  destruct err' as [e | ]; [destruct (errors.Is ErrMaxAnalysisIters e) | ];
    cbn [analyzerOf]; try rewrite IH; exact Hstack.
Qed.

(** The error variable after the loop holds what the last batch returned:
    nothing, or an error of kind [ErrMaxAnalysisIters]. *)
Lemma rangeBatches_Finished batches :
  forall scope a n err a' n' e,
    rangeBatches batches scope a n err = Finished a' n' (Some e) ->
    errors.Is ErrMaxAnalysisIters e = true \/ err = Some e.
Proof.
  induction batches as [ | batch rest IH]; intros scope a n err a' n' e.
  - cbn. intros [= _ _ ->]. now right.
  - cbn [rangeBatches].
    destruct (Batch_Eval batch (PushDebugContext (Desc batch) a) n scope)
      as [a2 [n1 [e1 | ]]].
    + destruct (errors.Is ErrMaxAnalysisIters e1) eqn:Hkind; [ | discriminate].
      intros Hloop. apply IH in Hloop as [Hmax | [= ->]]; now left.
    + intros Hloop. apply IH in Hloop as [Hmax | [=]]. now left.
Qed.

(** The loop on a list of batches and one more. *)
Lemma rangeBatches_app batches batch :
  forall scope a n err,
    rangeBatches (batches ++ [batch])%list scope a n err
    = match rangeBatches batches scope a n err with
      | Returned a' n' e => Returned a' n' e
      | Finished a' n' err' => rangeBatches [batch] scope a' n' err'
      end.
Proof.
  induction batches as [ | b rest IH]; intros scope a n err; [reflexivity | ].
  cbn [app rangeBatches].
  destruct (Batch_Eval b (PushDebugContext (Desc b) a) n scope)
    as [a2 [n1 [e1 | ]]];
    [destruct (errors.Is ErrMaxAnalysisIters e1) | ];
    try apply IH; reflexivity.
Qed.

(** When the last batch exceeds its iterations, [Analyze] returns that
    error. *)
Lemma Analyze_last_batch a (m : Node) scope batches batch a1 n1 err1 a2 n2 e :
  Batches a = (batches ++ [batch])%list ->
  rangeBatches batches scope a (Some m) None = Finished a1 n1 err1 ->
  Batch_Eval batch (PushDebugContext (Desc batch) a1) n1 scope
  = (a2, (n2, Some e)) ->
  errors.Is ErrMaxAnalysisIters e = true ->
  err (Analyze a m scope) = Some e /\ node (Analyze a m scope) = n2.
Proof.
  intros Hbatches Hloop Heval Hkind.
  unfold Analyze. rewrite Hbatches, rangeBatches_app, Hloop.
  cbn [rangeBatches]. rewrite Heval, Hkind. now split.
Qed.

(** When [Analyze] returns an error of another kind, it returned from
    inside the loop: the span carries the one tag it was opened with and
    was not finished. *)
Lemma Analyze_early_return a (m : Node) scope e :
  err (Analyze a m scope) = Some e ->
  errors.Is ErrMaxAnalysisIters e = false ->
  span (Analyze a m scope)
  = StartSpan "analyze" [("plan", TagString (Node_String m))].
Proof.
  unfold Analyze. intros Herr Hkind.
  destruct (rangeBatches (Batches a) scope a (Some m) None)
    as [a' n' e' | a' n' err'] eqn:Hloop; [reflexivity | ].
  cbn [err] in Herr. subst err'.
  apply rangeBatches_Finished in Hloop as [Hmax | [=]]. congruence.
Qed.

(** C9.  When the batch evaluations leave the context stack as they found
    it, the stack after [Analyze] is the stack before it, whether the call
    returned from inside the loop with an error or after the last batch:
    each description pushed was popped. *)
Theorem Analyze_restores_contextStack a (m : Node) scope :
  stackNeutral ->
  contextStack (analyzer (Analyze a m scope)) = contextStack a.
Proof.
  intros Hneutral. unfold Analyze.
  pose proof (rangeBatches_contextStack (Batches a) Hneutral scope a
                (Some m) None) as Hstack.
  destruct (rangeBatches (Batches a) scope a (Some m) None); exact Hstack.
Qed.

End DriverProperties.

(** * The scenarios, and where the code departs from the specification *)

Section Scenarios.

Import expression opentracing analyzer.

(** C4.  A comparison of two operands of different static types, neither
    value NULL, returns what the priority ladder of the specification
    returns: both values converted as the first rung that applies says
    (decimal, double, signed, unsigned, or char when neither type is a
    number), then compared in that rung's common type, which the node keeps
    in [compareType].  [LessThan(Literal(1, Int64), Literal(2.0, Float64))]
    is true, with common type [Float64]. *)
Theorem Compare_follows_the_ladder :
  (forall (SQL : sql.Package) (RE : regex.Package)
          (c : comparison Expression) (row : Row) (l r : Value),
      fst (Eval (Left c) row) = Ok l ->
      fst (Eval (Right c) row) = Ok r ->
      l <> nil -> r <> nil ->
      Type_of (Left c) <> Type_of (Right c) ->
      fst (Compare_at c row)
      = ladderCompare (Type_of (Left c)) (Type_of (Right c)) l r
      /\ forall g l' r',
           rung (Type_of (Left c)) (Type_of (Right c)) = Some g ->
           sql.convertValue l (coerceTo g) = Ok l' ->
           sql.convertValue r (coerceTo g) = Ok r' ->
           compareType (snd (Compare_at c row))
           = Some (commonType g (Type_of (Left c)) (Type_of (Right c))))
  /\ Eval (LessThan scenarios.one_and_two) []
     = (Ok (VBool true),
        LessThan (set_compareType fragment.Float64 scenarios.one_and_two)).
Proof.
  split.
  - intros SQL RE c row l r HL HR Hl Hr Hty.
    now apply Compare_ladder.
  - reflexivity.
Qed.

Lemma Compare_follows_the_ladder_witness :
  fst (Compare_at scenarios.one_and_two []) = Ok (-1)%Z
  /\ compareType (snd (Compare_at scenarios.one_and_two []))
     = Some fragment.Float64.
Proof.
  destruct (proj1 Compare_follows_the_ladder fragment.SQL fragment.RE
              scenarios.one_and_two []
              (VInt64 1) (VFloat64 (fragment.float64 2))
              eq_refl eq_refl) as [Hres Htype].
  - discriminate.
  - discriminate.
  - discriminate.
  - split.
    + rewrite Hres. reflexivity.
    + exact (Htype _ _ _ eq_refl eq_refl eq_refl).
Defined.

(** C5.  When the kernel returns [z], one of -1, 0 and 1, [=] is true iff
    [z = 0], [>] iff [z = 1], [<] iff [z = -1], [>=] iff [z <> -1] and [<=]
    iff [z <> 1].  [GreaterThanOrEqual(Literal("10", Text), Literal(9,
    Int64))] compares as signed integers and is true. *)
Theorem operators_map_the_kernel_result :
  (forall (SQL : sql.Package) (RE : regex.Package)
          (c : comparison Expression) (row : Row) (z : Z),
      fst (Compare_at c row) = Ok z ->
      (z = -1 \/ z = 0 \/ z = 1)%Z ->
      fst (Eval (Equals c) row) = Ok (VBool (z =? 0)%Z)
      /\ fst (Eval (GreaterThan c) row) = Ok (VBool (z =? 1)%Z)
      /\ fst (Eval (LessThan c) row) = Ok (VBool (z =? -1)%Z)
      /\ fst (Eval (GreaterThanOrEqual c) row)
         = Ok (VBool (negb (z =? -1)%Z))
      /\ fst (Eval (LessThanOrEqual c) row)
         = Ok (VBool (negb (z =? 1)%Z)))
  /\ Eval (GreaterThanOrEqual scenarios.ten_and_nine) []
     = (Ok (VBool true),
        GreaterThanOrEqual
          (set_compareType fragment.Int64 scenarios.ten_and_nine)).
Proof.
  split.
  - intros SQL RE c row z HC Hz. now apply result_mapping.
  - reflexivity.
Qed.

Lemma operators_map_the_kernel_result_witness :
  fst (Compare_at scenarios.ten_and_nine []) = Ok 1%Z
  /\ fst (Eval (GreaterThanOrEqual scenarios.ten_and_nine) [])
     = Ok (VBool true)
  /\ fst (Eval (LessThanOrEqual scenarios.ten_and_nine) [])
     = Ok (VBool false).
Proof.
  pose proof (proj1 operators_map_the_kernel_result fragment.SQL fragment.RE
                scenarios.ten_and_nine [] 1%Z eq_refl
                (or_intror (or_intror eq_refl))) as H.
  split; [reflexivity | ].
  split; [exact (proj1 (proj2 (proj2 (proj2 H))))
         | exact (proj2 (proj2 (proj2 (proj2 H))))].
Defined.

Lemma null_operand_evaluates_to_NULL_witness :
  fst (Eval (Left scenarios.null_and_one) []) = Ok nil
  /\ fst (Eval (Right scenarios.null_and_one) []) = Ok (VInt64 1)
  /\ fst (Eval (Equals scenarios.null_and_one) []) = Ok nil.
Proof.
  split; [reflexivity | ]. split; [reflexivity | ].
  exact (proj1 (proj2 (@null_operand_evaluates_to_NULL
                         fragment.SQL fragment.RE scenarios.null_and_one []
                         nil (VInt64 1) eq_refl eq_refl
                         (or_introl eq_refl)))).
Defined.

(** C7 as stated fails: evaluating [1 < 2.0] writes [Float64] into the
    [compareType] field of the node, which was [nil]. *)
Lemma evaluation_changes_the_tree :
  compareType scenarios.one_and_two = None
  /\ snd (Eval (LessThan scenarios.one_and_two) [])
     = LessThan (set_compareType fragment.Float64 scenarios.one_and_two)
  /\ snd (Eval (LessThan scenarios.one_and_two) [])
     <> LessThan scenarios.one_and_two.
Proof.
  split; [reflexivity | ]. split; [reflexivity | ].
  discriminate.
Qed.

Lemma Eval_writes_compareType_and_pool_only_witness :
  comparison_of (LessThan scenarios.one_and_two) = Some scenarios.one_and_two
  /\ skeleton (snd (Eval (LessThan scenarios.one_and_two) []))
     = skeleton (LessThan scenarios.one_and_two)
  /\ exists c',
       comparison_of (snd (Eval (LessThan scenarios.one_and_two) []))
       = Some c'.
Proof.
  split; [reflexivity | ].
  destruct (@Eval_writes_compareType_and_pool_only fragment.SQL fragment.RE
              (LessThan scenarios.one_and_two) []) as [Hskeleton Hfield].
  split; [exact Hskeleton | ].
  destruct (Hfield scenarios.one_and_two eq_refl) as (c' & Hc' & _).
  exists c'. exact Hc'.
Defined.

(** C3.  The claim fails on the code.  A cached [Regexp] whose first
    evaluation matched puts the bare matcher into its pool, while [Get]
    expects a [matcherErrTuple]: the next evaluation whose left value is not
    NULL panics on the type assertion.  So it is for ["hello" REGEXP
    "^h.*o$"]: [NewRegexp] marks it cached, the first evaluation is true,
    the second panics. *)
Theorem cached_Regexp_panics_when_evaluated_again :
  (forall (SQL : sql.Package) (RE : regex.Package)
          (re : regexp Expression) (row row' : Row)
          (l r l' lv' : Value) (text pattern : string) (m : regex.Matcher),
      cached re = true -> pool re = None ->
      bothText re = true ->
      fst (Eval (Left (re_comparison re)) row) = Ok l -> l <> nil ->
      sql.Convert sql.LongText l = Ok (VString text) ->
      fst (Eval (Right (re_comparison re)) row) = Ok r -> r <> nil ->
      sql.Convert sql.LongText r = Ok (VString pattern) ->
      regex.New pattern = Ok m ->
      fst (Eval (snd (Eval (Left (re_comparison re)) row)) row') = Ok l' ->
      l' <> nil ->
      sql.Convert sql.LongText l' = Ok lv' ->
      fst (Eval (Regexp re) row) = Ok (VBool (regex.Match m text))
      /\ fst (Eval (snd (Eval (Regexp re) row)) row')
         = Panic "interface conversion: interface {} is not expression.matcherErrTuple")
  /\ NewRegexp (scenarios.text "hello") (scenarios.text "^h.*o$")
     = Regexp scenarios.hello
  /\ fst (Eval (Regexp scenarios.hello) []) = Ok (VBool true)
  /\ fst (Eval (snd (Eval (Regexp scenarios.hello) [])) [])
     = Panic "interface conversion: interface {} is not expression.matcherErrTuple".
Proof.
  split.
  - intros SQL RE re row row' l r l' lv' text pattern m.
    apply Regexp_reuse.
  - repeat split.
Qed.

Lemma cached_Regexp_panics_when_evaluated_again_witness :
  cached scenarios.hello = true
  /\ fst (Eval (Regexp scenarios.hello) []) = Ok (VBool true)
  /\ fst (Eval (snd (Eval (Regexp scenarios.hello) [])) [])
     = Panic "interface conversion: interface {} is not expression.matcherErrTuple".
Proof.
  split; [reflexivity | ].
  refine (proj1 cached_Regexp_panics_when_evaluated_again
            fragment.SQL fragment.RE scenarios.hello [] []
            (VString "hello") (VString "^h.*o$") (VString "hello")
            (VString "hello") "hello" "^h.*o$" "^h.*o$"
            eq_refl eq_refl eq_refl eq_refl _ eq_refl eq_refl _ eq_refl
            eq_refl eq_refl _ eq_refl); discriminate.
Defined.

(** C8.  The claim fails on the code, by the defect of C3.  [Regexp.Eval]
    takes the regex path exactly when both operands are of a text type, and
    otherwise it runs the kernel and answers as [=] does: true iff the
    kernel returns 0, NULL when the kernel fails with [ErrNilOperand].  On
    the regex path, a node that is not cached, or that has no pool yet,
    converts the left value to a string and matches it against the pattern
    compiled from the right value.  But a cached node whose pool holds the
    bare matcher that an evaluation put back tests nothing: it panics on the
    type assertion.  So it is for ["hello" REGEXP "^h.*o$"], two text
    operands, at the node its first evaluation leaves. *)
Theorem Regexp_tests_no_pattern_on_a_used_pool :
  (forall (SQL : sql.Package) (RE : regex.Package)
          (re : regexp Expression) (row : Row),
      (bothText re = true ->
       Eval (Regexp re) row
       = rewrap Regexp
           (compareRegexp (Eval (Left (re_comparison re)) row)
                          (Eval (Right (re_comparison re)) row) re))
      /\ (bothText re = true ->
          cached re = false \/ pool re = None ->
          forall l r text pattern m,
            fst (Eval (Left (re_comparison re)) row) = Ok l -> l <> nil ->
            sql.Convert sql.LongText l = Ok (VString text) ->
            fst (Eval (Right (re_comparison re)) row) = Ok r -> r <> nil ->
            sql.Convert sql.LongText r = Ok (VString pattern) ->
            regex.New pattern = Ok m ->
            fst (Eval (Regexp re) row) = Ok (VBool (regex.Match m text)))
      /\ (bothText re = true ->
          cached re = true ->
          forall p m rest l lv,
            pool re = Some p -> objects p = aMatcher m :: rest ->
            fst (Eval (Left (re_comparison re)) row) = Ok l -> l <> nil ->
            sql.Convert sql.LongText l = Ok lv ->
            fst (Eval (Regexp re) row)
            = Panic "interface conversion: interface {} is not expression.matcherErrTuple")
      /\ (bothText re = false ->
          fst (Eval (Regexp re) row)
          = fst (Eval (Equals (re_comparison re)) row)
          /\ (exists c',
                 snd (Eval (Equals (re_comparison re)) row) = Equals c'
                 /\ snd (Eval (Regexp re) row)
                    = Regexp (set_comparison c' re))
          /\ (forall z,
                 fst (Compare_at (re_comparison re) row) = Ok z ->
                 fst (Eval (Regexp re) row) = Ok (VBool (z =? 0)%Z))
          /\ (forall err,
                 fst (Compare_at (re_comparison re) row) = Err err ->
                 errors.Is ErrNilOperand err = true ->
                 fst (Eval (Regexp re) row) = Ok nil)))
  /\ bothText scenarios.hello = true
  /\ Eval (Regexp scenarios.hello) []
     = (Ok (VBool true), Regexp examples.hello_again)
  /\ bothText examples.hello_again = true
  /\ fst (Eval (Regexp examples.hello_again) [])
     = Panic "interface conversion: interface {} is not expression.matcherErrTuple".
Proof.
  split.
  - intros SQL RE re row.
    split; [apply Eval_Regexp_text | ].
    split; [intros Htext Hfresh l r text pattern m; now apply Regexp_matches | ].
    split; [ | apply Regexp_like_Equals].
    intros Htext Hcached p m rest l lv. now apply Regexp_used_pool.
  - repeat split.
Qed.

Lemma Regexp_tests_no_pattern_on_a_used_pool_witness :
  bothText examples.hello_again = true
  /\ cached examples.hello_again = true
  /\ pool examples.hello_again = Some (poolAfter "^h.*o$" "^h.*o$")
  /\ fst (Eval (Left (re_comparison examples.hello_again)) [])
     = Ok (VString "hello")
  /\ fst (Eval (Regexp examples.hello_again) [])
     = Panic "interface conversion: interface {} is not expression.matcherErrTuple".
Proof.
  split; [reflexivity | ]. split; [reflexivity | ].
  split; [reflexivity | ]. split; [reflexivity | ].
  refine (proj1 (proj2 (proj2
            (proj1 Regexp_tests_no_pattern_on_a_used_pool
               fragment.SQL fragment.RE examples.hello_again [])))
            eq_refl eq_refl (poolAfter "^h.*o$" "^h.*o$") "^h.*o$" []
            (VString "hello") (VString "hello")
            eq_refl eq_refl eq_refl _ eq_refl); discriminate.
Defined.

(** C2.  The claim fails on the code.  An [ErrMaxAnalysisIters] of a batch
    that is not the last is dropped, as the loop goes on and overwrites the
    error variable; the one of the last batch stays in that variable and
    [Analyze] returns it.  An analyzer whose only batch does not converge
    returns the error; with a converging batch after it, it returns none. *)
Theorem Analyze_returns_MaxAnalysisIters_of_the_last_batch :
  (forall (P : Plans) (B : Evaluator) (a : Analyzer) (m : Node)
          (scope : option Scope) (batches : list Batch) (batch : Batch)
          (a1 a2 : Analyzer) (n1 n2 : option Node)
          (err1 : option errors.Error) (e : errors.Error),
      Batches a = (batches ++ [batch])%list ->
      rangeBatches batches scope a (Some m) None = Finished a1 n1 err1 ->
      Batch_Eval batch (PushDebugContext (Desc batch) a1) n1 scope
      = (a2, (n2, Some e)) ->
      errors.Is ErrMaxAnalysisIters e = true ->
      err (Analyze a m scope) = Some e /\ node (Analyze a m scope) = n2)
  /\ err (Analyze scenarios.unconverged scenarios.table None)
     = Some (errors.New ErrMaxAnalysisIters ["3"])
  /\ err (Analyze scenarios.twoBatches scenarios.table None) = None.
Proof.
  split.
  - intros P B a m scope batches batch a1 a2 n1 n2 err1 e.
    apply Analyze_last_batch.
  - split; reflexivity.
Qed.

Lemma Analyze_returns_MaxAnalysisIters_of_the_last_batch_witness :
  errors.Is ErrMaxAnalysisIters (errors.New ErrMaxAnalysisIters ["3"]) = true
  /\ err (Analyze scenarios.unconverged scenarios.table None)
     = Some (errors.New ErrMaxAnalysisIters ["3"]).
Proof.
  split; [reflexivity | ].
  refine (proj1 (proj1 Analyze_returns_MaxAnalysisIters_of_the_last_batch
                   plans.P plans.B scenarios.unconverged scenarios.table None
                   [] (plans.batch "default-rules" 3 [plans.widen_limit])
                   scenarios.unconverged
                   (PushDebugContext "default-rules" scenarios.unconverged)
                   (Some scenarios.table)
                   (Some (plans.Limit 2 scenarios.table))
                   None (errors.New ErrMaxAnalysisIters ["3"])
                   eq_refl eq_refl eq_refl eq_refl)).
Defined.

(** C6.  The claim fails on the code.  The span is opened with the tag
    ["plan"], but the function that tags it with ["IsResolved"] and finishes
    it is deferred after the loop: when [Analyze] returns an error that is
    not an [ErrMaxAnalysisIters], it has returned from inside the loop and
    the span is as it was opened, untagged and unfinished.  So it is when a
    validation rejects the plan. *)
Theorem Analyze_leaves_the_span_open_on_error :
  (forall (P : Plans) (B : Evaluator) (a : Analyzer) (m : Node)
          (scope : option Scope) (e : errors.Error),
      err (Analyze a m scope) = Some e ->
      errors.Is ErrMaxAnalysisIters e = false ->
      span (Analyze a m scope)
      = StartSpan "analyze" [("plan", TagString (Node_String m))])
  /\ err (Analyze scenarios.validating scenarios.table None)
     = Some (errors.New ErrInAnalysis ["plan is not resolved"])
  /\ finished (span (Analyze scenarios.validating scenarios.table None))
     = false
  /\ Tag "IsResolved"
       (span (Analyze scenarios.validating scenarios.table None))
     = None.
Proof.
  split.
  - intros P B a m scope e. apply Analyze_early_return.
  - repeat split.
Qed.

Lemma Analyze_leaves_the_span_open_on_error_witness :
  err (Analyze scenarios.validating scenarios.table None)
  = Some (errors.New ErrInAnalysis ["plan is not resolved"])
  /\ span (Analyze scenarios.validating scenarios.table None)
     = StartSpan "analyze" [("plan", TagString "UnresolvedTable(t)")].
Proof.
  split; [reflexivity | ].
  exact (proj1 Analyze_leaves_the_span_open_on_error
           plans.P plans.B scenarios.validating scenarios.table None
           (errors.New ErrInAnalysis ["plan is not resolved"])
           eq_refl eq_refl).
Defined.

Lemma Analyze_restores_contextStack_witness :
  @stackNeutral plans.P plans.B
  /\ contextStack
       (analyzer (Analyze scenarios.twoBatches scenarios.table None))
     = contextStack scenarios.twoBatches.
Proof.
  assert (@stackNeutral plans.P plans.B) as Hneutral.
  { intros b a n scope. cbn [Batch_Eval plans.B]. unfold plans.Batch_Eval.
    destruct n as [plan | ]; [ | reflexivity].
    destruct (plans.iterate _ _ _ plan). reflexivity. }
  split; [exact Hneutral | ].
  exact (@Analyze_restores_contextStack plans.P plans.B
           scenarios.twoBatches scenarios.table None Hneutral).
Defined.

End Scenarios.

(** * More of the comparison kernel *)

Section KernelProperties.

Import expression children.

Context {SQL : sql.Package} {RE : regex.Package}.

Implicit Types (c : comparison Expression) (re : regexp Expression).
Implicit Types (e : Expression) (row : Row) (L R : Result Value * Expression).

(** The kernel, case by case. *)
Lemma Compare_unfold L R c :
  Compare L R c
  = match fst L with
    | Ok l =>
        match fst R with
        | Ok r =>
            let c1 := evaluated L R c in
            if isNil l || isNil r
            then (Err (errors.New ErrNilOperand []), c1)
            else if sql.Type_eqb (Type_of (snd L)) (Type_of (snd R))
            then (sql.Compare (Type_of (snd L)) l r, c1)
            else
              match castLeftAndRight l r c1 with
              | (Ok lr, c2) =>
                  (match compareType c2 with
                   | Some t => sql.Compare t (fst lr) (snd lr)
                   | None =>
                       Panic "invalid memory address or nil pointer dereference"
                   end, c2)
              | (Err err, c2) => (Err err, c2)
              | (Panic p, c2) => (Panic p, c2)
              end
        | Err err => (Err err, evaluated L R c)
        | Panic p => (Panic p, evaluated L R c)
        end
    | Err err => (Err err, set_Left (snd L) c)
    | Panic p => (Panic p, set_Left (snd L) c)
    end.
Proof.
  unfold Compare, evalLeftAndRight, bind at 1 2, call_Left_Eval.
  destruct (fst L) as [l | err | p]; try reflexivity.
  unfold bind at 1, call_Right_Eval.
  destruct (fst R) as [r | err | p]; try reflexivity.
  cbn [ret fst snd]. fold (evaluated L R c).
  destruct (isNil l || isNil r); [reflexivity | ].
  unfold bind at 1, get. cbn [evaluated set_Right set_Left Left Right].
  destruct (sql.Type_eqb (Type_of (snd L)) (Type_of (snd R)));
    [reflexivity | ].
  unfold bind.
  destruct (castLeftAndRight l r _) as [[lr | err | p] c2]; try reflexivity.
  unfold get. destruct (compareType c2); reflexivity.
Qed.

(** The six [Eval] on the result of the kernel. *)
Lemma Eval_operators c row :
  let out := Compare_at c row in
  let answer (f : Z -> bool) :=
    match fst out with
    | Ok z => Ok (VBool (f z))
    | Err err => if errors.Is ErrNilOperand err then Ok nil else Err err
    | Panic p => Panic p
    end in
  Eval (Equals c) row = (answer (fun z => z =? 0)%Z, Equals (snd out))
  /\ Eval (GreaterThan c) row
     = (answer (fun z => z =? 1)%Z, GreaterThan (snd out))
  /\ Eval (LessThan c) row = (answer (fun z => z =? -1)%Z, LessThan (snd out))
  /\ Eval (GreaterThanOrEqual c) row
     = (answer (fun z => -1 <? z)%Z, GreaterThanOrEqual (snd out))
  /\ Eval (LessThanOrEqual c) row
     = (answer (fun z => z <? 1)%Z, LessThanOrEqual (snd out)).
Proof.
  intros out answer. subst out answer. unfold Compare_at.
  cbn [Eval]. unfold rewrap, Equals_Eval, GreaterThan_Eval, LessThan_Eval,
    GreaterThanOrEqual_Eval, LessThanOrEqual_Eval.
  rewrite !orNull_bind_Compare.
  destruct (Compare _ _ c) as [[z | err | p] c']; cbn [fst snd];
    try (repeat split; reflexivity).
  destruct (errors.Is ErrNilOperand err); repeat split; reflexivity.
Qed.

(** X1.  An error of a child that is not an [ErrNilOperand] comes out of
    the kernel and of the five operators as it is, and the [compareType] of
    the node is not written. *)
Theorem child_error_is_returned c row err :
  (fst (Eval (Left c) row) = Err err
   \/ exists l, fst (Eval (Left c) row) = Ok l
                /\ fst (Eval (Right c) row) = Err err) ->
  errors.Is ErrNilOperand err = false ->
  fst (Compare_at c row) = Err err
  /\ compareType (snd (Compare_at c row)) = compareType c
  /\ fst (Eval (Equals c) row) = Err err
  /\ fst (Eval (GreaterThan c) row) = Err err
  /\ fst (Eval (LessThan c) row) = Err err
  /\ fst (Eval (GreaterThanOrEqual c) row) = Err err
  /\ fst (Eval (LessThanOrEqual c) row) = Err err.
Proof.
  intros Hchild Hkind.
  destruct (Eval_operators c row) as (-> & -> & -> & -> & ->).
  assert (fst (Compare_at c row) = Err err
          /\ compareType (snd (Compare_at c row)) = compareType c)
    as [HC HT].
  { unfold Compare_at. rewrite Compare_unfold.
    destruct Hchild as [-> | (l & -> & ->)]; now split. }
  cbn [fst]. rewrite HC, Hkind. now repeat split.
Qed.

(** X2.  The left operand is evaluated first, and when it fails the right
    operand is not evaluated: the node keeps its right child and its
    [compareType] as they were, and has the left child as its failed
    evaluation left it. *)
Theorem left_error_skips_the_right_operand c row err :
  fst (Eval (Left c) row) = Err err ->
  Compare_at c row = (Err err, set_Left (snd (Eval (Left c) row)) c)
  /\ Right (snd (Compare_at c row)) = Right c.
Proof.
  intros HL. unfold Compare_at. rewrite Compare_unfold, HL. now split.
Qed.

(** X3.  The operators recognise the sentinel by its kind alone: an error
    of kind [ErrNilOperand] that a child returns is answered with NULL, like
    the one the kernel makes. *)
Theorem child_ErrNilOperand_is_answered_with_NULL c row err :
  (fst (Eval (Left c) row) = Err err
   \/ exists l, fst (Eval (Left c) row) = Ok l
                /\ fst (Eval (Right c) row) = Err err) ->
  errors.Is ErrNilOperand err = true ->
  fst (Compare_at c row) = Err err
  /\ fst (Eval (Equals c) row) = Ok nil
  /\ fst (Eval (GreaterThan c) row) = Ok nil
  /\ fst (Eval (LessThan c) row) = Ok nil
  /\ fst (Eval (GreaterThanOrEqual c) row) = Ok nil
  /\ fst (Eval (LessThanOrEqual c) row) = Ok nil.
Proof.
  intros Hchild Hkind.
  destruct (Eval_operators c row) as (-> & -> & -> & -> & ->).
  assert (fst (Compare_at c row) = Err err) as HC.
  { unfold Compare_at. rewrite Compare_unfold.
    destruct Hchild as [-> | (l & -> & ->)]; reflexivity. }
  cbn [fst]. rewrite HC, Hkind. now repeat split.
Qed.

(** X4.  Two operands of the same static type are compared as they are, by
    that type: nothing is converted and [compareType] is not written. *)
Theorem same_type_compares_the_raw_values c row l r :
  fst (Eval (Left c) row) = Ok l ->
  fst (Eval (Right c) row) = Ok r ->
  l <> nil -> r <> nil ->
  Type_of (Left c) = Type_of (Right c) ->
  Compare_at c row
  = (sql.Compare (Type_of (Left c)) l r,
     evaluated (Eval (Left c) row) (Eval (Right c) row) c)
  /\ compareType (snd (Compare_at c row)) = compareType c.
Proof.
  intros HL HR Hl Hr Hty.
  assert (Compare_at c row
          = (sql.Compare (Type_of (Left c)) l r,
             evaluated (Eval (Left c) row) (Eval (Right c) row) c)) as ->.
  { unfold Compare_at. rewrite Compare_unfold, HL, HR.
    cbv zeta. rewrite (isNil_false Hl), (isNil_false Hr). cbn [orb].
    rewrite !Type_of_Eval, Hty.
    unfold sql.Type_eqb.
    destruct (sql.Type_eq_dec (Type_of (Right c)) (Type_of (Right c)));
      [reflexivity | congruence]. }
  split; reflexivity.
Qed.

(** X5.  When a conversion on the ladder fails, the kernel returns that
    error and leaves [compareType] as it was: the field is written only
    after both values were converted. *)
Theorem failed_conversion_writes_nothing c row l r g err :
  fst (Eval (Left c) row) = Ok l ->
  fst (Eval (Right c) row) = Ok r ->
  l <> nil -> r <> nil ->
  Type_of (Left c) <> Type_of (Right c) ->
  rung (Type_of (Left c)) (Type_of (Right c)) = Some g ->
  convertLeftAndRight l r (coerceTo g) = Err err ->
  Compare_at c row
  = (Err err, evaluated (Eval (Left c) row) (Eval (Right c) row) c)
  /\ compareType (snd (Compare_at c row)) = compareType c.
Proof.
  intros HL HR Hl Hr Hty Hg Hconv.
  destruct (Compare_at_cast c row HL HR Hl Hr Hty) as (g' & Hg' & ->).
  assert (g' = g) as -> by congruence.
  rewrite Hconv. split; reflexivity.
Qed.

(** What [castLeftAndRight] returns and stores does not depend on what
    [compareType] held. *)
Lemma castLeftAndRight_with_compareType c lv rv t :
  fst (castLeftAndRight lv rv (with_compareType t c))
  = fst (castLeftAndRight lv rv c)
  /\ (forall lr, fst (castLeftAndRight lv rv c) = Ok lr ->
       compareType (snd (castLeftAndRight lv rv (with_compareType t c)))
       = compareType (snd (castLeftAndRight lv rv c))
       /\ exists t', compareType (snd (castLeftAndRight lv rv c)) = Some t').
Proof.
  destruct (castLeftAndRight_rung c lv rv) as (g & Hg & Hres & Hst).
  destruct (castLeftAndRight_rung (with_compareType t c) lv rv)
    as (g' & Hg' & Hres' & Hst').
  cbn [with_compareType Left Right] in Hg'.
  assert (g' = g) as -> by congruence.
  rewrite Hres, Hres', Hst, Hst'. split; [reflexivity | ].
  intros lr ->. cbn. eauto.
Qed.

Lemma Compare_at_with_compareType c row t :
  fst (Compare_at (with_compareType t c) row) = fst (Compare_at c row).
Proof.
  unfold Compare_at. rewrite !Compare_unfold.
  cbn [with_compareType Left Right].
  destruct (fst (Eval (Left c) row)) as [l | err | p]; try reflexivity.
  destruct (fst (Eval (Right c) row)) as [r | err | p]; try reflexivity.
  cbv zeta.
  destruct (isNil l || isNil r); [reflexivity | ].
  destruct (sql.Type_eqb _ _); [reflexivity | ].
  set (c1 := evaluated _ _ c).
  change (evaluated (Eval (Left c) row) (Eval (Right c) row)
            (with_compareType t c)) with (with_compareType t c1).
  destruct (castLeftAndRight_with_compareType c1 l r t) as [Hres Hst].
  destruct (castLeftAndRight l r c1) as [res c2].
  destruct (castLeftAndRight l r (with_compareType t c1)) as [res' c2'].
  cbn [fst snd] in Hres, Hst. subst res'.
  destruct res as [lr | err | p]; try reflexivity.
  destruct (Hst lr eq_refl) as [-> [t' ->]]. reflexivity.
Qed.

(** X7.  [compareType] is a scratch field: what the kernel and the five
    operators return does not depend on what the field held before the
    evaluation. *)
Theorem result_does_not_depend_on_compareType c row t :
  fst (Compare_at (with_compareType t c) row) = fst (Compare_at c row)
  /\ fst (Eval (Equals (with_compareType t c)) row)
     = fst (Eval (Equals c) row)
  /\ fst (Eval (GreaterThan (with_compareType t c)) row)
     = fst (Eval (GreaterThan c) row)
  /\ fst (Eval (LessThan (with_compareType t c)) row)
     = fst (Eval (LessThan c) row)
  /\ fst (Eval (GreaterThanOrEqual (with_compareType t c)) row)
     = fst (Eval (GreaterThanOrEqual c) row)
  /\ fst (Eval (LessThanOrEqual (with_compareType t c)) row)
     = fst (Eval (LessThanOrEqual c) row).
Proof.
  pose proof (Compare_at_with_compareType c row t) as HC.
  split; [exact HC | ].
  destruct (Eval_operators c row) as (-> & -> & -> & -> & ->).
  destruct (Eval_operators (with_compareType t c) row)
    as (-> & -> & -> & -> & ->).
  cbn [fst]. rewrite HC. now repeat split.
Qed.

End KernelProperties.

(** * More of REGEXP, and the results of the six operators *)

Section RegexpProperties.

Import expression children.

Context {SQL : sql.Package} {RE : regex.Package}.

Implicit Types (c : comparison Expression) (re : regexp Expression).
Implicit Types (e : Expression) (row : Row) (L R : Result Value * Expression).

Lemma returns_bind {S A B : Type} (Q : B -> Prop) (m : M S A)
    (k : A -> M S B) :
  (forall a, returns Q (k a)) -> returns Q (bind m k).
Proof.
  intros Hk s b. unfold bind.
  destruct (m s) as [[a | err | p] s']; cbn [fst]; try discriminate.
  apply Hk.
Qed.

Lemma returns_ret {S A : Type} (Q : A -> Prop) (a : A) :
  Q a -> returns Q (@ret S A a).
Proof. intros Ha s b [= <-]. exact Ha. Qed.

Lemma returns_fail {S A : Type} (Q : A -> Prop) err :
  returns Q (@fail S A err).
Proof. intros s b. discriminate. Qed.

Lemma returns_panic {S A : Type} (Q : A -> Prop) p :
  returns Q (@panic S A p).
Proof. intros s b. discriminate. Qed.

Lemma returns_if {S A : Type} (Q : A -> Prop) (b : bool) (m1 m2 : M S A) :
  returns Q m1 -> returns Q m2 -> returns Q (if b then m1 else m2).
Proof. now destruct b. Qed.

Lemma returns_matchRegexp lv rv : returns nullOrBool (matchRegexp lv rv).
Proof.
  unfold matchRegexp.
  apply returns_bind. intros re.
  apply returns_bind. intros [[matcher | ] [err | ]]; cbn [fst snd];
    try apply returns_fail; try apply returns_panic;
    (apply returns_bind; intros text;
     apply returns_bind; intros re';
     apply returns_bind; intros _;
     apply returns_ret; right; eauto).
Qed.

Lemma returns_compareRegexp L R : returns nullOrBool (compareRegexp L R).
Proof.
  unfold compareRegexp.
  apply returns_bind. intros lv.
  apply returns_if; [apply returns_ret; now left | ].
  apply returns_bind. intros lv'.
  apply returns_bind. intros re.
  apply returns_if; [ | apply returns_matchRegexp].
  apply returns_bind. intros rv.
  apply returns_if; [apply returns_ret; now left | ].
  apply returns_bind. intros rv'.
  apply returns_matchRegexp.
Qed.

(** [Regexp.Eval] on its generic path, on the result of the kernel. *)
Lemma Eval_Regexp_kernel re row :
  bothText re = false ->
  Eval (Regexp re) row
  = (match fst (Compare_at (re_comparison re) row) with
     | Ok z => Ok (VBool (z =? 0)%Z)
     | Err err => if errors.Is ErrNilOperand err then Ok nil else Err err
     | Panic p => Panic p
     end,
     Regexp (set_comparison (snd (Compare_at (re_comparison re) row)) re)).
Proof.
  intros Htext. rewrite (Eval_Regexp_generic _ _ Htext).
  unfold rewrap, embedded, zoom, Equals_Eval, Compare_at.
  rewrite orNull_bind_Compare.
  destruct (Compare _ _ (re_comparison re)) as [[z | err | p] c'];
    cbn [fst snd]; try reflexivity.
  destruct (errors.Is ErrNilOperand err); reflexivity.
Qed.

(** X8.  Each of the six operators returns, when it returns without error,
    NULL or a boolean: a value of the type that [Type()] announces. *)
Theorem operators_return_NULL_or_a_boolean e row c v :
  comparison_of e = Some c ->
  fst (Eval e row) = Ok v ->
  nullOrBool v.
Proof.
  intros Hc.
  assert (forall f : Z -> bool,
             match fst (Compare_at c row) with
             | Ok z => Ok (VBool (f z))
             | Err err =>
                 if errors.Is ErrNilOperand err then Ok nil else Err err
             | Panic p => Panic p
             end = Ok v -> nullOrBool v) as Hanswer.
  { intros f. destruct (fst (Compare_at c row)) as [z | err | p].
    - intros [= <-]. right. eauto.
    - destruct (errors.Is ErrNilOperand err); [ | discriminate].
      intros [= <-]. now left.
    - discriminate. }
  destruct (Eval_operators c row) as (HE & HG & HL & HGE & HLE).
  destruct e as [v0 t | i t | t f | c0 | re | c0 | c0 | c0 | c0];
    cbn [comparison_of] in Hc; try discriminate; injection Hc as <-;
    try (rewrite ?HE, ?HG, ?HL, ?HGE, ?HLE; cbn [fst]; apply Hanswer).
  destruct (bothText re) eqn:Htext.
  - rewrite (Eval_Regexp_text _ _ Htext). cbn [rewrap fst].
    apply returns_compareRegexp.
  - rewrite Eval_Regexp_kernel by exact Htext. cbn [fst]. apply Hanswer.
Qed.

Lemma Type_of_skeleton e : Type_of (skeleton e) = Type_of e.
Proof. destruct e; reflexivity. Qed.

(** The node after an evaluation: its operands have the types they had,
    and its [compareType] is as it was or is the common type of the rung. *)
Lemma comparison_after_Eval e row c :
  comparison_of e = Some c ->
  exists c',
    comparison_of (snd (Eval e row)) = Some c'
    /\ Type_of (Left c') = Type_of (Left c)
    /\ Type_of (Right c') = Type_of (Right c)
    /\ (compareType c' = compareType c
        \/ exists g,
             rung (Type_of (Left c)) (Type_of (Right c)) = Some g
             /\ compareType c'
                = Some (commonType g (Type_of (Left c)) (Type_of (Right c)))).
Proof.
  intros Hc.
  pose proof (skeleton_Eval e row) as Hsk.
  assert (forall c', snd (Compare_at c row) = c' ->
             compareType c' = compareType c
             \/ exists g,
                  rung (Type_of (Left c)) (Type_of (Right c)) = Some g
                  /\ compareType c'
                     = Some (commonType g (Type_of (Left c))
                                          (Type_of (Right c)))) as Hkernel.
  { intros c' <-. exact (compareType_Compare_at c row). }
  destruct (Eval_operators c row) as (HE & HG & HL & HGE & HLE).
  destruct e as [v0 t | i t | t f | c0 | re | c0 | c0 | c0 | c0];
    cbn [comparison_of] in Hc; try discriminate; injection Hc as <-;
    try (rewrite ?HE, ?HG, ?HL, ?HGE, ?HLE in Hsk |- *;
         cbn [snd comparison_of skeleton] in Hsk |- *;
         injection Hsk as HskL HskR;
         eexists; split; [reflexivity | ];
         rewrite <- (Type_of_skeleton (Left (snd _))), HskL,
           <- (Type_of_skeleton (Right (snd _))), HskR,
           !Type_of_skeleton;
         split; [reflexivity | split; [reflexivity | ]];
         now apply Hkernel).
  destruct (bothText re) eqn:Htext.
  - rewrite (Eval_Regexp_text _ _ Htext) in Hsk |- *.
    cbn [rewrap snd comparison_of skeleton] in Hsk |- *.
    injection Hsk as HskL HskR _.
    eexists; split; [reflexivity | ].
    rewrite <- (Type_of_skeleton (Left _)), HskL,
      <- (Type_of_skeleton (Right _)), HskR, !Type_of_skeleton.
    split; [reflexivity | split; [reflexivity | ]].
    left. apply compareType_compareRegexp.
  - rewrite Eval_Regexp_kernel in Hsk |- * by exact Htext.
    cbn [snd comparison_of skeleton set_comparison re_comparison]
      in Hsk |- *.
    injection Hsk as HskL HskR.
    eexists; split; [reflexivity | ].
    rewrite <- (Type_of_skeleton (Left _)), HskL,
      <- (Type_of_skeleton (Right _)), HskR, !Type_of_skeleton.
    split; [reflexivity | split; [reflexivity | ]].
    now apply Hkernel.
Qed.

(** X6.  The [compareType] of a node settles: the common type that is
    written depends on the static types of the operands alone, so a field
    that is [nil] or holds that type is [nil] or holds that type after any
    evaluation, and once it holds the type it keeps it.  The rung of the
    node after the evaluation is the rung before it. *)
Theorem compareType_settles e row c g :
  comparison_of e = Some c ->
  rung (Type_of (Left c)) (Type_of (Right c)) = Some g ->
  compareType c = None
  \/ compareType c
     = Some (commonType g (Type_of (Left c)) (Type_of (Right c))) ->
  exists c',
    comparison_of (snd (Eval e row)) = Some c'
    /\ rung (Type_of (Left c')) (Type_of (Right c')) = Some g
    /\ (compareType c' = None
        \/ compareType c'
           = Some (commonType g (Type_of (Left c')) (Type_of (Right c'))))
    /\ (compareType c <> None -> compareType c' = compareType c).
Proof.
  intros Hc Hg Hfield.
  destruct (comparison_after_Eval e row Hc)
    as (c' & Hc' & HtL & HtR & Hwritten).
  exists c'. rewrite HtL, HtR.
  split; [exact Hc' | ]. split; [exact Hg | ].
  destruct Hwritten as [Hsame | (g' & Hg' & Hnew)].
  - rewrite Hsame. split; [exact Hfield | reflexivity].
  - assert (g' = g) as -> by congruence.
    split; [now right | ].
    intros Hset. destruct Hfield as [Hnone | Hsome]; congruence.
Qed.

(** The walk of [NewRegexp] over a tree. *)
Lemma Inspect_GetField e :
  forall cached,
    Inspect
      (fun e cached =>
         (true, match e with GetField _ _ => false | _ => cached end))
      e cached
    = cached && negb (containsGetField e).
Proof.
  revert e. fix IH 1. intros e cached.
  destruct e as [v t | i t | t f | c | re | c | c | c | c];
    cbn [Inspect containsGetField negb];
    rewrite ?andb_true_r, ?andb_false_r; try reflexivity;
    rewrite !IH, negb_orb, andb_assoc; reflexivity.
Qed.

Lemma NewRegexp_cached (l r : Expression) :
  NewRegexp l r
  = Regexp {| re_comparison := newComparison l r;
              pool := None;
              cached := negb (containsGetField r) |}.
Proof.
  unfold NewRegexp. rewrite Inspect_GetField. reflexivity.
Qed.

(** X9.  [NewRegexp] marks the node as cached exactly when no [GetField]
    occurs in the pattern operand, at any depth; the node starts without a
    pool and without a [compareType]. *)
Theorem NewRegexp_caches_patterns_without_GetField (l r : Expression) :
  NewRegexp l r
  = Regexp {| re_comparison := newComparison l r;
              pool := None;
              cached := negb (containsGetField r) |}.
Proof.
  unfold NewRegexp. rewrite Inspect_GetField. reflexivity.
Qed.

(** Without the cache, a match leaves the node as it found it. *)
Lemma matchRegexp_uncached lv rv re :
  cached re = false -> snd (matchRegexp lv rv re) = re.
Proof.
  intros Hcached. destruct re as [c p flag]. cbn [cached] in Hcached.
  subst flag.
  unfold matchRegexp, bind, get, assertString, ret, panic, fail.
  cbn [cached negb].
  destruct rv; try reflexivity.
  destruct (regex.New s) as [m | err | q]; cbn [fst snd]; try reflexivity.
  destruct lv; reflexivity.
Qed.

(** X10.  A [Regexp] that is not cached never gets a pool: an evaluation
    leaves its [pool] field as it was and the node uncached. *)
Theorem uncached_Regexp_makes_no_pool re row :
  cached re = false ->
  exists re',
    snd (Eval (Regexp re) row) = Regexp re'
    /\ pool re' = pool re
    /\ cached re' = false.
Proof.
  intros Hcached.
  destruct (bothText re) eqn:Htext.
  - rewrite (Eval_Regexp_text _ _ Htext). cbn [rewrap snd].
    eexists. split; [reflexivity | ].
    set (J := fun re' : regexp Expression =>
                pool re' = pool re /\ cached re' = false).
    assert (forall lv rv, preserves J (matchRegexp lv rv)) as Hmatch.
    { intros lv rv re' [Hp Hc]. rewrite matchRegexp_uncached by exact Hc.
      now split. }
    assert (forall A (m : M (comparison Expression) A),
               preserves J (embedded m)) as Hembedded.
    { intros A m re' HJ. unfold embedded, zoom.
      destruct (m (re_comparison re')). exact HJ. }
    assert (preserves J (compareRegexp (Eval (Left (re_comparison re)) row)
                           (Eval (Right (re_comparison re)) row))) as Hpres.
    { unfold compareRegexp.
      apply preserves_bind; [apply Hembedded | intros lv].
      apply preserves_if; [apply preserves_ret | ].
      apply preserves_bind; [apply preserves_lift | intros lv'].
      apply preserves_bind; [apply preserves_get | intros re0].
      apply preserves_if; [ | apply Hmatch].
      apply preserves_bind; [apply Hembedded | intros rv].
      apply preserves_if; [apply preserves_ret | ].
      apply preserves_bind; [apply preserves_lift | intros rv'].
      apply Hmatch. }
    exact (Hpres re (conj eq_refl Hcached)).
  - rewrite Eval_Regexp_kernel by exact Htext. cbn [snd].
    eexists. split; [reflexivity | ]. now split.
Qed.

(** The regex path when the pattern does not compile, for a node without a
    pool. *)
Lemma compareRegexp_invalid L R re l lv r pattern err :
  pool re = None ->
  fst L = Ok l -> l <> nil ->
  sql.Convert sql.LongText l = Ok lv ->
  fst R = Ok r -> r <> nil ->
  sql.Convert sql.LongText r = Ok (VString pattern) ->
  regex.New pattern = Err err ->
  compareRegexp L R re
  = (Err (errors.New ErrInvalidRegexp [errors.Error_ err]),
     let re1 := set_comparison (evaluated L R (re_comparison re)) re in
     if cached re
     then set_pool (Some {| Pool_New := newMatcherErrTuple (VString pattern);
                            objects := [] |}) re1
     else re1).
Proof.
  intros Hpool HL Hl Hcl HR Hr Hcr Hnew.
  assert (newMatcherErrTuple (VString pattern) tt
          = Ok (matcherErrTuple None (Some err))) as Hfactory
      by (unfold newMatcherErrTuple; now rewrite Hnew).
  destruct re as [c p flag]. cbn [pool] in Hpool. subst p.
  unfold compareRegexp, embedded, zoom, bind, call_Left_Eval, call_Right_Eval,
    get, lift, ret.
  cbn [re_comparison set_comparison pool cached].
  rewrite HL, (isNil_false Hl), Hcl, orb_true_r.
  cbn [re_comparison set_comparison pool cached].
  rewrite HR, (isNil_false Hr), Hcr.
  unfold matchRegexp, bind, get, assertString, ret, modify, pool_Get,
    Pool_Get, fail.
  cbn [cached pool set_comparison re_comparison].
  destruct flag; cbn [negb isNone set_pool pool cached objects Pool_New].
  - rewrite Hfactory. reflexivity.
  - rewrite Hnew. reflexivity.
Qed.

(** The regex path of a cached node whose pool is empty and whose factory
    fails. *)
Lemma compareRegexp_invalid_again L R re l lv p err :
  cached re = true ->
  pool re = Some p -> objects p = [] ->
  Pool_New p tt = Ok (matcherErrTuple None (Some err)) ->
  fst L = Ok l -> l <> nil ->
  sql.Convert sql.LongText l = Ok lv ->
  compareRegexp L R re
  = (Err (errors.New ErrInvalidRegexp [errors.Error_ err]),
     set_comparison (set_Left (snd L) (re_comparison re)) re).
Proof.
  intros Hcached Hpool Hobjs Hfactory HL Hl Hcl.
  destruct re as [c q flag]. cbn [pool cached] in Hpool, Hcached.
  subst q flag.
  destruct p as [factory objs]. cbn [objects Pool_New] in Hobjs, Hfactory.
  subst objs.
  unfold compareRegexp, embedded, zoom, bind, call_Left_Eval, get, lift, ret.
  cbn [re_comparison set_comparison pool cached].
  rewrite HL, (isNil_false Hl), Hcl.
  cbn [re_comparison set_comparison pool cached negb isNone orb].
  unfold matchRegexp, bind, get, modify, pool_Get, Pool_Get, ret, fail.
  cbn [cached pool negb isNone objects Pool_New set_pool set_comparison
       re_comparison].
  rewrite Hfactory. reflexivity.
Qed.

(** X11.  A pattern that does not compile is reported as an
    [ErrInvalidRegexp] that carries the message of the engine, and nothing
    is put into the pool: a cached node reports the same error at its next
    evaluation, with no panic. *)
Theorem invalid_pattern_is_reported_each_time
    re row row' l lv r pattern err l' lv' :
  pool re = None ->
  bothText re = true ->
  fst (Eval (Left (re_comparison re)) row) = Ok l -> l <> nil ->
  sql.Convert sql.LongText l = Ok lv ->
  fst (Eval (Right (re_comparison re)) row) = Ok r -> r <> nil ->
  sql.Convert sql.LongText r = Ok (VString pattern) ->
  regex.New pattern = Err err ->
  fst (Eval (snd (Eval (Left (re_comparison re)) row)) row') = Ok l' ->
  l' <> nil ->
  sql.Convert sql.LongText l' = Ok lv' ->
  fst (Eval (Regexp re) row)
  = Err (errors.New ErrInvalidRegexp [errors.Error_ err])
  /\ (cached re = true ->
      fst (Eval (snd (Eval (Regexp re) row)) row')
      = Err (errors.New ErrInvalidRegexp [errors.Error_ err])).
Proof.
  intros Hpool Htext HL Hl Hcl HR Hr Hcr Hnew HL' Hl' Hcl'.
  rewrite (Eval_Regexp_text _ _ Htext).
  rewrite (compareRegexp_invalid _ _ re Hpool HL Hl Hcl HR Hr Hcr Hnew).
  cbn [rewrap fst snd]. split; [reflexivity | ].
  intros Hcached. rewrite Hcached.
  set (re1 := set_pool _ _).
  assert (bothText re1 = true) as Htext1.
  { unfold bothText. cbn. rewrite !Type_of_Eval. exact Htext. }
  rewrite (Eval_Regexp_text _ _ Htext1). cbn [rewrap fst].
  assert (newMatcherErrTuple (VString pattern) tt
          = Ok (matcherErrTuple None (Some err))) as Hfactory
      by (unfold newMatcherErrTuple; now rewrite Hnew).
  rewrite (@compareRegexp_invalid_again _ _ re1 l' lv'
             {| Pool_New := newMatcherErrTuple (VString pattern);
                objects := [] |} err Hcached eq_refl eq_refl Hfactory
             HL' Hl' Hcl').
  reflexivity.
Qed.

(** X12.  Once a cached [Regexp] has its pool, the pattern operand is not
    evaluated any more: what an evaluation returns and leaves behind does
    not depend on what evaluating the right child would do. *)
Theorem cached_Regexp_evaluates_the_pattern_once L R R' re p :
  cached re = true ->
  pool re = Some p ->
  compareRegexp L R re = compareRegexp L R' re.
Proof.
  intros Hcached Hpool.
  destruct re as [c q flag]. cbn [pool cached] in Hpool, Hcached.
  subst q flag.
  unfold compareRegexp, embedded, zoom, bind, call_Left_Eval, get, lift, ret.
  cbn [re_comparison set_comparison pool cached].
  destruct (fst L) as [l | err | q]; try reflexivity.
  destruct (isNil l); reflexivity.
Qed.

(** X13.  A NULL on the left of [REGEXP]: on the regex path the answer is
    NULL and the right operand is not evaluated; on the generic path the
    right operand is evaluated all the same, and its error, if it fails, is
    what [Eval] returns. *)
Theorem NULL_on_the_left_of_Regexp re row :
  fst (Eval (Left (re_comparison re)) row) = Ok nil ->
  (bothText re = true ->
   Eval (Regexp re) row
   = (Ok nil,
      Regexp (set_comparison
                (set_Left (snd (Eval (Left (re_comparison re)) row))
                          (re_comparison re)) re)))
  /\ (bothText re = false ->
      forall err,
        fst (Eval (Right (re_comparison re)) row) = Err err ->
        errors.Is ErrNilOperand err = false ->
        fst (Eval (Regexp re) row) = Err err).
Proof.
  intros HL. split; intros Htext.
  - rewrite (Eval_Regexp_text _ _ Htext).
    unfold rewrap, compareRegexp, embedded, zoom, bind at 1, call_Left_Eval.
    rewrite HL. reflexivity.
  - intros err HR Hkind.
    rewrite Eval_Regexp_kernel by exact Htext. cbn [fst].
    unfold Compare_at. rewrite Compare_unfold, HL, HR. cbn [fst].
    now rewrite Hkind.
Qed.

(** X14.  [WithChildren] takes two children: with any other number it
    fails with [ErrInvalidChildrenNumber]; with two it builds a node on them
    that has no [compareType] yet. *)
Theorem WithChildren_takes_two_children e children rebuilt :
  WithChildren e children = Some rebuilt ->
  (List.length children <> 2%nat ->
   exists err,
     rebuilt = Err err
     /\ errors.Is ErrInvalidChildrenNumber err = true)
  /\ (forall l r,
        children = [l; r] ->
        exists e',
          rebuilt = Ok e'
          /\ comparison_of e' = Some (newComparison l r)).
Proof.
  intros Hrebuilt. split.
  - intros Hlength.
    destruct children as [ | x [ | y [ | z more]]];
      try (cbn in Hlength; congruence);
      destruct e; cbn in Hrebuilt; try discriminate;
      injection Hrebuilt as <-; eexists; split; reflexivity.
  - intros l r ->.
    destruct e; cbn in Hrebuilt; try discriminate;
      injection Hrebuilt as <-; eexists; split; reflexivity.
Qed.

(** X15.  A node rebuilt by [WithChildren] from its own two children is
    the same operator on the same operands, with an empty [compareType]; a
    comparison other than [REGEXP] rebuilt this way returns on every row
    what the node it was built from returns, and a [REGEXP] has the cached
    flag it had when [NewRegexp] made it. *)
Theorem WithChildren_of_the_own_children e c :
  comparison_of e = Some c ->
  exists e',
    WithChildren e [Left c; Right c] = Some (Ok e')
    /\ comparison_of e' = Some (newComparison (Left c) (Right c))
    /\ ((forall re, e = Regexp re ->
                    cached re = negb (containsGetField (Right c))) ->
        skeleton e' = skeleton e)
    /\ ((forall re, e <> Regexp re) ->
        forall row, fst (Eval e' row) = fst (Eval e row)).
Proof.
  intros Hc.
  pose proof (fun row => Compare_at_with_compareType c row None) as HC.
  change (with_compareType None c)
    with (newComparison (Left c) (Right c)) in HC.
  destruct e as [v t | i t | t f | c0 | re | c0 | c0 | c0 | c0];
    cbn [comparison_of] in Hc; try discriminate; injection Hc as Hc;
    first [subst c0 | subst c];
    try (eexists; split; [reflexivity | ]; split; [reflexivity | ]; split;
         [ intros _; reflexivity
         | intros Hop row;
           destruct (Eval_operators c row) as (HE & HG & HL & HGE & HLE);
           destruct (Eval_operators (newComparison (Left c) (Right c)) row)
             as (HE' & HG' & HL' & HGE' & HLE');
           unfold NewEquals, NewGreaterThan, NewLessThan,
             NewGreaterThanOrEqual, NewLessThanOrEqual;
           rewrite ?HE, ?HG, ?HL, ?HGE, ?HLE, ?HE', ?HG', ?HL', ?HGE', ?HLE';
           cbn [fst]; now rewrite HC ]).
  exists (NewRegexp (Left (re_comparison re)) (Right (re_comparison re))).
  split; [reflexivity | ].
  rewrite NewRegexp_cached.
  split; [reflexivity | ]. split.
  - intros Hflag.
    cbn [skeleton re_comparison cached pool newComparison Left Right].
    now rewrite (Hflag re eq_refl).
  - intros Hop. now destruct (Hop re).
Qed.

End RegexpProperties.

(** * More of the analyzer driver *)

Section MoreDriverProperties.

Import opentracing analyzer.

Context {P : Plans} {B : Evaluator}.

Implicit Types (a : Analyzer) (n : option Node) (scope : option Scope).
Implicit Types (err : option errors.Error) (batches : list Batch).

(** The loop on two lists of batches, one after the other. *)
Lemma rangeBatches_append batches rest :
  forall scope a n err,
    rangeBatches (batches ++ rest)%list scope a n err
    = match rangeBatches batches scope a n err with
      | Returned a' n' e => Returned a' n' e
      | Finished a' n' err' => rangeBatches rest scope a' n' err'
      end.
Proof.
  induction batches as [ | b more IH]; intros scope a n err; [reflexivity | ].
  cbn [app rangeBatches].
  destruct (Batch_Eval b (PushDebugContext (Desc b) a) n scope)
    as [a2 [n1 [e1 | ]]];
    [destruct (errors.Is ErrMaxAnalysisIters e1) | ];
    try apply IH; reflexivity.
Qed.

(** The loop returns early only with an error of another kind than
    [ErrMaxAnalysisIters]. *)
Lemma rangeBatches_Returned batches :
  forall scope a n err a' n' e,
    rangeBatches batches scope a n err = Returned a' n' e ->
    errors.Is ErrMaxAnalysisIters e = false.
Proof.
  induction batches as [ | b more IH]; intros scope a n err a' n' e.
  - discriminate.
  - cbn [rangeBatches].
    destruct (Batch_Eval b (PushDebugContext (Desc b) a) n scope)
      as [a2 [n1 [e1 | ]]].
    + destruct (errors.Is ErrMaxAnalysisIters e1) eqn:Hkind.
      * apply IH.
      * intros [= _ _ <-]. exact Hkind.
    + apply IH.
Qed.

(** X16.  [PopDebugContext] undoes [PushDebugContext]: one pop after one
    push gives the analyzer back, as many pops as pushes give it back, and a
    pop on an empty stack changes nothing. *)
Theorem PopDebugContext_undoes_PushDebugContext :
  (forall msg a, PopDebugContext (PushDebugContext msg a) = a)
  /\ (forall msgs a,
        Nat.iter (List.length msgs) PopDebugContext
          (fold_left (fun a' msg => PushDebugContext msg a') msgs a)
        = a)
  /\ (forall a, contextStack a = [] -> PopDebugContext a = a).
Proof.
  assert (forall msg a, PopDebugContext (PushDebugContext msg a) = a) as Hone.
  { intros msg [dbg verbose stack par batches cat].
    unfold PopDebugContext, PushDebugContext, set_contextStack.
    cbn [contextStack Debug Verbose Parallelism Batches Catalog_].
    rewrite length_app, Nat.add_comm. cbn [List.length Nat.add Nat.ltb Nat.leb].
    now rewrite removelast_last. }
  split; [exact Hone | ]. split.
  - induction msgs as [ | msg more IH]; intros a; [reflexivity | ].
    cbn [List.length fold_left Nat.iter nat_rect].
    change (PopDebugContext
              (Nat.iter (List.length more) PopDebugContext
                 (fold_left (fun a' m => PushDebugContext m a') more
                    (PushDebugContext msg a))) = a).
    now rewrite IH.
  - intros a Hempty. unfold PopDebugContext. now rewrite Hempty.
Qed.

(** X17.  [Analyze] stops at the first batch that fails with an error that
    is not an [ErrMaxAnalysisIters]: it returns the node and the error of
    that batch, and the batches after it are not evaluated, so they have no
    part in what comes back. *)
Theorem Analyze_stops_at_the_first_error
    a (m : Node) scope before batch after a1 n1 err1 a2 n2 e :
  Batches a = (before ++ batch :: after)%list ->
  rangeBatches before scope a (Some m) None = Finished a1 n1 err1 ->
  Batch_Eval batch (PushDebugContext (Desc batch) a1) n1 scope
  = (a2, (n2, Some e)) ->
  errors.Is ErrMaxAnalysisIters e = false ->
  node (Analyze a m scope) = n2
  /\ err (Analyze a m scope) = Some e
  /\ analyzer (Analyze a m scope) = PopDebugContext a2.
Proof.
  intros Hbatches Hloop Heval Hkind.
  unfold Analyze. rewrite Hbatches, rangeBatches_append, Hloop.
  cbn [rangeBatches]. rewrite Heval, Hkind. now repeat split.
Qed.

(** X18.  When [Analyze] returns no error, or an [ErrMaxAnalysisIters], the
    loop ran to its end: the span is finished, it still carries the plan it
    was opened with, and its tag [IsResolved] is the resolved status of the
    node that is returned, or is absent when that node is [nil]. *)
Theorem Analyze_finishes_the_span_after_the_last_batch a (m : Node) scope :
  match err (Analyze a m scope) with
  | None => True
  | Some e => errors.Is ErrMaxAnalysisIters e = true
  end ->
  finished (span (Analyze a m scope)) = true
  /\ Tag "plan" (span (Analyze a m scope)) = Some (TagString (Node_String m))
  /\ Tag "IsResolved" (span (Analyze a m scope))
     = option_map (fun m' => TagBool (Node_Resolved m'))
                  (node (Analyze a m scope)).
Proof.
  unfold Analyze.
  destruct (rangeBatches (Batches a) scope a (Some m) None)
    as [a' n' e | a' n' err'] eqn:Hloop; cbn [err node span].
  - intros Hkind. apply rangeBatches_Returned in Hloop. congruence.
  - intros _. destruct n' as [m' | ]; repeat split.
Qed.

(** X19.  An [ErrMaxAnalysisIters] of a batch that is not the last one is
    dropped: when the last batch returns no error, [Analyze] returns none,
    whatever the batches before it left in the error variable, and the node
    is the one of the last batch. *)
Theorem MaxAnalysisIters_before_the_last_batch_is_dropped
    a (m : Node) scope before batch a1 n1 err1 a2 n2 :
  Batches a = (before ++ [batch])%list ->
  rangeBatches before scope a (Some m) None = Finished a1 n1 err1 ->
  Batch_Eval batch (PushDebugContext (Desc batch) a1) n1 scope
  = (a2, (n2, None)) ->
  err (Analyze a m scope) = None
  /\ node (Analyze a m scope) = n2
  /\ finished (span (Analyze a m scope)) = true.
Proof.
  intros Hbatches Hloop Heval.
  unfold Analyze. rewrite Hbatches, rangeBatches_append, Hloop.
  cbn [rangeBatches]. rewrite Heval. now repeat split.
Qed.

(** X20.  Batch descriptions do not pile up: when the batch evaluations
    leave the context stack as they found it, the loop of [Analyze] calls
    [Eval] of each of its batches with an analyzer whose context stack is
    the stack of the caller with the description of that batch on top, and
    goes on from what that call returns, the description taken off again. *)
Theorem each_batch_runs_under_its_own_description
    a (m : Node) scope before (batch : Batch) after a1 n1 err1 :
  stackNeutral ->
  Batches a = (before ++ batch :: after)%list ->
  rangeBatches before scope a (Some m) None = Finished a1 n1 err1 ->
  contextStack (PushDebugContext (Desc batch) a1)
  = (contextStack a ++ [Desc batch])%list
  /\ contextStack
       (PopDebugContext
          (fst (Batch_Eval batch (PushDebugContext (Desc batch) a1) n1 scope)))
     = contextStack a
  /\ rangeBatches (Batches a) scope a (Some m) None
     = match Batch_Eval batch (PushDebugContext (Desc batch) a1) n1 scope with
       | (a2, (n2, Some e)) =>
           if errors.Is ErrMaxAnalysisIters e
           then rangeBatches after scope (PopDebugContext a2) n2 (Some e)
           else Returned (PopDebugContext a2) n2 e
       | (a2, (n2, None)) =>
           rangeBatches after scope (PopDebugContext a2) n2 None
       end.
Proof.
  intros Hneutral Hbatches Hloop.
  pose proof (rangeBatches_contextStack before Hneutral scope a (Some m) None)
    as Hstack.
  rewrite Hloop in Hstack. cbn [analyzerOf] in Hstack.
  set (under := PushDebugContext (Desc batch) a1).
  assert (contextStack under = (contextStack a ++ [Desc batch])%list)
    as Hunder
      by (unfold under; rewrite contextStack_Push; now rewrite Hstack).
  split; [exact Hunder | ]. split.
  - pose proof (Hneutral batch under n1 scope) as Hafter.
    rewrite Hunder in Hafter. exact (contextStack_Pop _ _ _ Hafter).
  - rewrite Hbatches, rangeBatches_append, Hloop. cbn [rangeBatches].
    fold under.
    destruct (Batch_Eval batch under n1 scope) as [a2 [n2 [e | ]]];
      reflexivity.
Qed.

End MoreDriverProperties.

(** * The builder *)

Section BuilderProperties.

Import analyzer builder.

Context {P : Plans} {D : Defaults}.

Implicit Types (ab : Builder) (LookupEnv : string -> option string).

(** X21.  A rule added to a builder reaches the batch of its kind, after
    the rules of that kind added before it, and no other batch: the rules
    of every other description are the ones the builder had. *)
Theorem added_rules_reach_their_batch LookupEnv ab name fn :
  (rulesOf "pre-analyzer" (Build LookupEnv (AddPreAnalyzeRule name fn ab))
   = (rulesOf "pre-analyzer" (Build LookupEnv ab) ++ [newRule name fn])%list
   /\ forall desc,
        desc <> "pre-analyzer" ->
        rulesOf desc (Build LookupEnv (AddPreAnalyzeRule name fn ab))
        = rulesOf desc (Build LookupEnv ab))
  /\ (rulesOf "post-analyzer" (Build LookupEnv (AddPostAnalyzeRule name fn ab))
      = (rulesOf "post-analyzer" (Build LookupEnv ab)
         ++ [newRule name fn])%list
      /\ forall desc,
           desc <> "post-analyzer" ->
           rulesOf desc (Build LookupEnv (AddPostAnalyzeRule name fn ab))
           = rulesOf desc (Build LookupEnv ab))
  /\ (rulesOf "pre-validation"
        (Build LookupEnv (AddPreValidationRule name fn ab))
      = (rulesOf "pre-validation" (Build LookupEnv ab)
         ++ [newRule name fn])%list
      /\ forall desc,
           desc <> "pre-validation" ->
           rulesOf desc (Build LookupEnv (AddPreValidationRule name fn ab))
           = rulesOf desc (Build LookupEnv ab))
  /\ (rulesOf "post-validation"
        (Build LookupEnv (AddPostValidationRule name fn ab))
      = (rulesOf "post-validation" (Build LookupEnv ab)
         ++ [newRule name fn])%list
      /\ forall desc,
           desc <> "post-validation" ->
           rulesOf desc (Build LookupEnv (AddPostValidationRule name fn ab))
           = rulesOf desc (Build LookupEnv ab)).
Proof.
  repeat split;
    try (unfold rulesOf, Build; cbn; now rewrite ?app_nil_r);
    intros desc Hdesc; apply String.eqb_neq in Hdesc;
    unfold rulesOf, Build;
    cbn [Batches flat_map Desc Rules AddPreAnalyzeRule AddPostAnalyzeRule
         AddPreValidationRule AddPostValidationRule preAnalyzeRules
         postAnalyzeRules preValidationRules postValidationRules];
    rewrite Hdesc; reflexivity.
Qed.

End BuilderProperties.

(** * The properties above on concrete inputs *)

Section Examples.

Import expression children opentracing analyzer.

Lemma child_error_is_returned_witness :
  fst (Eval (Left examples.failing_and_one) []) = Err examples.failure
  /\ errors.Is ErrNilOperand examples.failure = false
  /\ fst (Eval (Equals examples.failing_and_one) []) = Err examples.failure.
Proof.
  split; [reflexivity | ]. split; [reflexivity | ].
  exact (proj1 (proj2 (proj2
           (@child_error_is_returned fragment.SQL fragment.RE
              examples.failing_and_one [] examples.failure
              (or_introl eq_refl) eq_refl)))).
Defined.

Lemma left_error_skips_the_right_operand_witness :
  fst (Eval (Left examples.failing_and_one) []) = Err examples.failure
  /\ Right (snd (Compare_at examples.failing_and_one []))
     = Right examples.failing_and_one.
Proof.
  split; [reflexivity | ].
  exact (proj2 (@left_error_skips_the_right_operand fragment.SQL fragment.RE
                  examples.failing_and_one [] examples.failure eq_refl)).
Defined.

Lemma child_ErrNilOperand_is_answered_with_NULL_witness :
  fst (Eval (Left examples.sentinel_and_one) [])
  = Err (errors.New ErrNilOperand [])
  /\ fst (Eval (LessThan examples.sentinel_and_one) []) = Ok nil.
Proof.
  split; [reflexivity | ].
  exact (proj1 (proj2 (proj2 (proj2
           (@child_ErrNilOperand_is_answered_with_NULL
              fragment.SQL fragment.RE examples.sentinel_and_one []
              (errors.New ErrNilOperand []) (or_introl eq_refl) eq_refl))))).
Defined.

Lemma same_type_compares_the_raw_values_witness :
  Type_of (Left examples.one_and_one) = Type_of (Right examples.one_and_one)
  /\ fst (Compare_at examples.one_and_one []) = Ok 0%Z
  /\ compareType (snd (Compare_at examples.one_and_one [])) = None.
Proof.
  split; [reflexivity | ].
  destruct (@same_type_compares_the_raw_values fragment.SQL fragment.RE
              examples.one_and_one [] (VInt64 1) (VInt64 1)
              eq_refl eq_refl) as [Hout Hfield]; try discriminate.
  - reflexivity.
  - split; [now rewrite Hout | exact Hfield].
Defined.

Lemma failed_conversion_writes_nothing_witness :
  fst (Compare_at examples.word_and_nine []) = Err examples.failure
  /\ compareType (snd (Compare_at examples.word_and_nine [])) = None.
Proof.
  edestruct (@failed_conversion_writes_nothing fragment.SQL fragment.RE
               examples.word_and_nine [] (VString "abc") (VInt64 9))
    as [Hout Hfield];
    [reflexivity | reflexivity | discriminate | discriminate | discriminate
     | reflexivity | reflexivity | ].
  split; [now rewrite Hout | exact Hfield].
Defined.

Lemma compareType_settles_witness :
  exists c',
    comparison_of (snd (Eval (LessThan scenarios.one_and_two) [])) = Some c'
    /\ (compareType c' = None \/ compareType c' = Some fragment.Float64).
Proof.
  destruct (@compareType_settles fragment.SQL fragment.RE
              (LessThan scenarios.one_and_two) [] scenarios.one_and_two _
              eq_refl eq_refl (or_introl eq_refl))
    as (c' & Hc' & _ & Hfield & _).
  exists c'. split; [exact Hc' | ].
  destruct (comparison_after_Eval (LessThan scenarios.one_and_two) []
              (c := scenarios.one_and_two) eq_refl)
    as (c'' & Hc'' & HtL & HtR & _).
  assert (c'' = c') as -> by congruence.
  rewrite HtL, HtR in Hfield. exact Hfield.
Defined.

Lemma operators_return_NULL_or_a_boolean_witness :
  fst (Eval (Equals scenarios.null_and_one) []) = Ok nil
  /\ nullOrBool nil.
Proof.
  split; [reflexivity | ].
  exact (@operators_return_NULL_or_a_boolean fragment.SQL fragment.RE
           (Equals scenarios.null_and_one) [] scenarios.null_and_one nil
           eq_refl eq_refl).
Defined.

Lemma uncached_Regexp_makes_no_pool_witness :
  cached examples.uncached = false
  /\ exists re',
       snd (Eval (Regexp examples.uncached) [VString "^h"]) = Regexp re'
       /\ pool re' = None
       /\ cached re' = false.
Proof.
  split; [reflexivity | ].
  exact (@uncached_Regexp_makes_no_pool fragment.SQL fragment.RE
           examples.uncached [VString "^h"] eq_refl).
Defined.

Lemma invalid_pattern_is_reported_each_time_witness :
  regex.New "*a"
  = Err (errors.New fragment.ErrSyntax
           ["missing argument to repetition operator"])
  /\ exists message,
       fst (Eval (Regexp examples.invalid) [])
       = Err (errors.New ErrInvalidRegexp [message])
       /\ fst (Eval (snd (Eval (Regexp examples.invalid) [])) [])
          = Err (errors.New ErrInvalidRegexp [message]).
Proof.
  split; [reflexivity | ].
  eexists.
  destruct (@invalid_pattern_is_reported_each_time fragment.SQL fragment.RE
              examples.invalid [] [] (VString "hello") (VString "hello")
              (VString "*a") "*a"
              (errors.New fragment.ErrSyntax
                 ["missing argument to repetition operator"])
              (VString "hello") (VString "hello")
              eq_refl eq_refl eq_refl) as [Hfirst Hagain];
    try discriminate; try reflexivity.
  split; [exact Hfirst | exact (Hagain eq_refl)].
Defined.

Lemma cached_Regexp_evaluates_the_pattern_once_witness :
  cached examples.hello_again = true
  /\ compareRegexp (Ok (VString "hello"), scenarios.text "hello")
                   (Ok (VString "a"), scenarios.text "a")
                   examples.hello_again
     = compareRegexp (Ok (VString "hello"), scenarios.text "hello")
                     (Err examples.failure, examples.failing)
                     examples.hello_again.
Proof.
  split; [reflexivity | ].
  exact (@cached_Regexp_evaluates_the_pattern_once fragment.SQL fragment.RE
           (Ok (VString "hello"), scenarios.text "hello")
           (Ok (VString "a"), scenarios.text "a")
           (Err examples.failure, examples.failing)
           examples.hello_again (poolAfter "^h.*o$" "^h.*o$")
           eq_refl eq_refl).
Defined.

Lemma NULL_on_the_left_of_Regexp_witness :
  fst (Eval (Regexp examples.null_like_a) []) = Ok nil
  /\ fst (Eval (Regexp examples.null_like_failing) [])
     = Err examples.failure.
Proof.
  split.
  - rewrite (proj1 (@NULL_on_the_left_of_Regexp fragment.SQL fragment.RE
                      examples.null_like_a [] eq_refl) eq_refl).
    reflexivity.
  - exact (proj2 (@NULL_on_the_left_of_Regexp fragment.SQL fragment.RE
                    examples.null_like_failing [] eq_refl)
             eq_refl examples.failure eq_refl eq_refl).
Defined.

Lemma WithChildren_takes_two_children_witness :
  exists err,
    WithChildren (Equals examples.one_and_one) [scenarios.int64 1]
    = Some (Err err)
    /\ errors.Is ErrInvalidChildrenNumber err = true.
Proof.
  destruct (proj1 (@WithChildren_takes_two_children fragment.SQL fragment.RE
                     (Equals examples.one_and_one) [scenarios.int64 1]
                     _ eq_refl))
    as (err & Hrebuilt & Hkind).
  - discriminate.
  - exists err. split; [now rewrite <- Hrebuilt | exact Hkind].
Defined.

Lemma WithChildren_of_the_own_children_witness :
  exists e',
    WithChildren (LessThan scenarios.one_and_two)
      [scenarios.int64 1; scenarios.double 2] = Some (Ok e')
    /\ fst (Eval e' []) = Ok (VBool true).
Proof.
  destruct (@WithChildren_of_the_own_children fragment.SQL fragment.RE
              (LessThan scenarios.one_and_two) scenarios.one_and_two eq_refl)
    as (e' & Hrebuilt & _ & _ & Hresult).
  exists e'. split; [exact Hrebuilt | ].
  rewrite Hresult; [reflexivity | discriminate].
Defined.

Lemma PopDebugContext_undoes_PushDebugContext_witness :
  contextStack scenarios.unconverged = []
  /\ PopDebugContext scenarios.unconverged = scenarios.unconverged
  /\ PopDebugContext (PushDebugContext "validation" scenarios.unconverged)
     = scenarios.unconverged.
Proof.
  split; [reflexivity | ]. split.
  - exact (proj2 (proj2 (@PopDebugContext_undoes_PushDebugContext plans.P))
             scenarios.unconverged eq_refl).
  - exact (proj1 (@PopDebugContext_undoes_PushDebugContext plans.P)
             "validation" scenarios.unconverged).
Defined.

Lemma Analyze_stops_at_the_first_error_witness :
  node (Analyze examples.validationFirst scenarios.table None)
  = Some scenarios.table
  /\ err (Analyze examples.validationFirst scenarios.table None)
     = Some (errors.New ErrInAnalysis ["plan is not resolved"]).
Proof.
  destruct (@Analyze_stops_at_the_first_error plans.P plans.B
              examples.validationFirst scenarios.table None
              [] (plans.batch "validation" 1 [plans.validate_resolved])
              [plans.batch "post-analyzer" 3 [plans.resolve_tables]]
              examples.validationFirst (Some scenarios.table) None
              (PushDebugContext "validation" examples.validationFirst)
              (Some scenarios.table)
              (errors.New ErrInAnalysis ["plan is not resolved"])
              eq_refl eq_refl eq_refl eq_refl) as (Hnode & Herr & _).
  split; [exact Hnode | exact Herr].
Defined.

Lemma Analyze_finishes_the_span_after_the_last_batch_witness :
  err (Analyze scenarios.twoBatches scenarios.table None) = None
  /\ finished (span (Analyze scenarios.twoBatches scenarios.table None))
     = true
  /\ Tag "IsResolved"
       (span (Analyze scenarios.twoBatches scenarios.table None))
     = Some (TagBool true).
Proof.
  split; [reflexivity | ].
  destruct (@Analyze_finishes_the_span_after_the_last_batch plans.P plans.B
              scenarios.twoBatches scenarios.table None I)
    as (Hfinished & _ & Htag).
  split; [exact Hfinished | ]. rewrite Htag. reflexivity.
Defined.

Lemma MaxAnalysisIters_before_the_last_batch_is_dropped_witness :
  rangeBatches [plans.batch "default-rules" 3 [plans.widen_limit]] None
    scenarios.twoBatches (Some scenarios.table) None
  = Finished scenarios.twoBatches
      (Some (plans.Limit 2 scenarios.table))
      (Some (errors.New ErrMaxAnalysisIters ["3"]))
  /\ err (Analyze scenarios.twoBatches scenarios.table None) = None.
Proof.
  split; [reflexivity | ].
  exact (proj1
           (@MaxAnalysisIters_before_the_last_batch_is_dropped plans.P plans.B
              scenarios.twoBatches scenarios.table None
              [plans.batch "default-rules" 3 [plans.widen_limit]]
              (plans.batch "post-analyzer" 3 [plans.resolve_tables])
              scenarios.twoBatches
              (Some (plans.Limit 2 scenarios.table))
              (Some (errors.New ErrMaxAnalysisIters ["3"]))
              (PushDebugContext "post-analyzer" scenarios.twoBatches)
              (Some (plans.Limit 2 (plans.ResolvedTable "t")))
              eq_refl eq_refl eq_refl)).
Defined.

Lemma plans_stackNeutral : @stackNeutral plans.P plans.B.
Proof.
  intros b a n scope. cbn [Batch_Eval plans.B]. unfold plans.Batch_Eval.
  destruct n as [plan | ]; [ | reflexivity].
  destruct (plans.iterate _ _ _ plan). reflexivity.
Qed.

Lemma each_batch_runs_under_its_own_description_witness :
  contextStack (PushDebugContext "post-analyzer" scenarios.twoBatches)
  = ["post-analyzer"]
  /\ rangeBatches (Batches scenarios.twoBatches) None scenarios.twoBatches
       (Some scenarios.table) None
     = Finished scenarios.twoBatches
         (Some (plans.Limit 2 (plans.ResolvedTable "t"))) None.
Proof.
  destruct (@each_batch_runs_under_its_own_description plans.P plans.B
              scenarios.twoBatches scenarios.table None
              [plans.batch "default-rules" 3 [plans.widen_limit]]
              (plans.batch "post-analyzer" 3 [plans.resolve_tables]) []
              scenarios.twoBatches
              (Some (plans.Limit 2 scenarios.table))
              (Some (errors.New ErrMaxAnalysisIters ["3"]))
              plans_stackNeutral eq_refl eq_refl)
    as (Hunder & _ & Hrun).
  split; [exact Hunder | ].
  etransitivity; [exact Hrun | reflexivity].
Defined.

Lemma added_rules_reach_their_batch_witness :
  builder.rulesOf "validation"
    (builder.Build (fun _ => None)
       (builder.AddPreAnalyzeRule "widen_limit" (fun plan => inl plan)
          (builder.NewBuilder None)))
  = [plans.validate_resolved]
  /\ builder.rulesOf "pre-analyzer"
       (builder.Build (fun _ => None)
          (builder.AddPreAnalyzeRule "widen_limit" (fun plan => inl plan)
             (builder.NewBuilder None)))
     = [plans.Build_Rule "widen_limit" (fun plan => inl plan)].
Proof.
  destruct (proj1 (@added_rules_reach_their_batch plans.P builder.D
                     (fun _ => None) (builder.NewBuilder None)
                     "widen_limit" (fun plan => inl plan)))
    as [Hown Hothers].
  split.
  - rewrite (Hothers "validation"); [reflexivity | discriminate].
  - rewrite Hown. reflexivity.
Defined.

End Examples.
